(** * llmcompressor.utils.pytorch.module: name, pattern and class lookup
      over a module tree

    A shallow embedding of [src/llmcompressor/utils/pytorch/module.py].
    Python values are modelled as follows.

    - [str] is [string]; slices and [split] are written out below.
    - A [dict] is an insertion-ordered association list ([dict]): assigning
      to a present key replaces the value in place, assigning to a fresh key
      appends, iteration follows the list.
    - A [torch.nn.Module] is a tree ([Module]): its class (simple name, the
      framework classes it is an instance of, and the attributes found on
      the class), its instance [__dict__], and its three registries, the
      directly owned parameters, the buffers and the children, as dicts.
      The tree has no shared objects and no registry slot set to [None],
      so the de-duplication and the skipping done by [named_modules] and
      [named_parameters] never fire; every module keeps its registries,
      and no global registration hook is installed.
    - Attribute lookup and assignment on a module follow
      [object.__getattribute__], [Module.__getattr__] and
      [Module.__setattr__] of torch.  A value that is neither a module nor
      a tensor of the tree is opaque ([PyValue]); attribute lookup on an
      object that is not a module is a parameter of [get_layer_by_name].
    - A reference to a module object inside the tree is a [Layer]: the
      position of the object (child indices from the root) together with
      the object found there.
    - Raised exceptions are values of [Exception]; a function that can
      raise returns a [result].
    - [re.match], [difflib.SequenceMatcher.find_longest_match],
      [fix_fsdp_module_name] and the optional classes of [torch.nn.qat] and
      [transformers] come from outside the module; they are the fields of
      [Host]. *)

From Stdlib Require Import ZArith String Ascii Bool Lia Sorted.
From stdpp Require Import base option list strings.

Local Open Scope string_scope.
Local Open Scope Z_scope.
Local Open Scope list_scope.
Set Warnings "-register-all".

(** ** Strings *)

Module Str.

(** [s[:n]] *)
Definition take (n : nat) (s : string) : string := substring 0 n s.

(** [s[n:]] *)
Definition drop (n : nat) (s : string) : string :=
  substring n (String.length s - n) s.

(** [c in s] for a one-character [c]. *)
Fixpoint contains (c : ascii) (s : string) : bool :=
  match s with
  | EmptyString => false
  | String a s' => if Ascii.eqb a c then true else contains c s'
  end.

(** [s.split(c)]: never empty, ["".split(".")] is [[""]]. *)
Fixpoint split (c : ascii) (s : string) : list string :=
  match s with
  | EmptyString => [EmptyString]
  | String a s' =>
      if Ascii.eqb a c then EmptyString :: split c s'
      else match split c s' with
           | [] => [String a EmptyString]
           | w :: ws => String a w :: ws
           end
  end.

(** [s] begins with [p]. *)
Fixpoint starts_with (p s : string) : bool :=
  match p, s with
  | EmptyString, _ => true
  | String a p', String b s' => Ascii.eqb a b && starts_with p' s'
  | String _ _, EmptyString => false
  end.

(** [sep.join(ws)] *)
Fixpoint join (sep : string) (ws : list string) : string :=
  match ws with
  | [] => EmptyString
  | [w] => w
  | w :: ws' => w +:+ sep +:+ join sep ws'
  end.

End Str.

Definition dot : ascii := "."%char.

(** ** Exceptions *)

Inductive Exception :=
| ValueError_targets_not_found (missed : list string)
| ValueError_expected_one (target : string) (found : nat)
| ImportError_quantization
| AttributeError (attr : string)
| TypeError_parameter_expected (attr : string)
| KeyError (key : string).

Inductive result (A : Type) :=
| Ok (a : A)
| Raise (e : Exception).
Arguments Ok {A} a.
Arguments Raise {A} e.

#[global] Instance result_ret : MRet result := fun A a => Ok a.
#[global] Instance result_bind : MBind result := fun A B k r =>
  match r with
  | Ok a => k a
  | Raise e => Raise e
  end.

(** ** Dictionaries *)

Definition dict (V : Type) := list (string * V).

Section Dict.
Context {V : Type}.

(** [d[k]] / [d.get(k)] *)
Fixpoint dict_get (k : string) (d : dict V) : option V :=
  match d with
  | [] => None
  | (k', v) :: d' => if String.eqb k' k then Some v else dict_get k d'
  end.

(** [d[k] = v] *)
Fixpoint dict_set (k : string) (v : V) (d : dict V) : dict V :=
  match d with
  | [] => [(k, v)]
  | (k', v') :: d' =>
      if String.eqb k' k then (k', v) :: d' else (k', v') :: dict_set k v d'
  end.

Definition keys (d : dict V) : list string := map fst d.

(** [if k in d: del d[k]] *)
Definition dict_del (k : string) (d : dict V) : dict V :=
  List.filter (fun kv => negb (String.eqb kv.1 k)) d.

(** [{k: v for k, v in items}] and every loop of the shape
    [for k, v in items: d[k] = v]. *)
Definition dict_of_items (items : list (string * V)) : dict V :=
  fold_left (fun d kv => dict_set kv.1 kv.2 d) items [].

End Dict.

(** ** The module tree *)

(** Framework classes the source tests with [isinstance]. *)
Inductive ClassRef :=
| Linear | _ConvNd | QATLinear_cls | QATConv2d_cls | QATConv3d_cls
| TransformerConv1D_cls | InternalModule | OtherClass (n : string).

Definition ClassRef_eqb (a b : ClassRef) : bool :=
  match a, b with
  | Linear, Linear | _ConvNd, _ConvNd | QATLinear_cls, QATLinear_cls
  | QATConv2d_cls, QATConv2d_cls | QATConv3d_cls, QATConv3d_cls
  | TransformerConv1D_cls, TransformerConv1D_cls
  | InternalModule, InternalModule => true
  | OtherClass n, OtherClass m => String.eqb n m
  | _, _ => false
  end.

(** A parameter tensor; only its identity matters here. *)
Inductive Tensor := tensor (id : nat).

(** A Python value that is neither a module nor a tensor of the tree (a
    flag, a bound method, a dict object); only its identity matters here. *)
Inductive PyValue := pyvalue (id : nat).

(** [class_attrs] holds what lookup on [type(layer)] finds, methods, class
    variables and properties, each with the value it gives on the object
    and a flag telling the data descriptors (properties) apart.
    [__dict__] holds the instance attributes; torch keeps the registries
    there as well, under [_parameters], [_buffers] and [_modules]: an entry
    under one of these names stands for the dict object, its contents are
    the three fields of the same names. *)
Inductive Module := mkModule {
  class_name : string;              (* [layer.__class__.__name__] *)
  class_mro : list ClassRef;        (* classes [layer] is an instance of *)
  class_attrs : dict (bool * PyValue);
  __dict__ : dict PyValue;
  _parameters : dict Tensor;        (* directly owned parameters *)
  _buffers : dict Tensor;
  _modules : list (string * Module) (* children, in declaration order *)
}.

Record Layer := mkLayer {
  address : list nat;
  node : Module
}.

Definition isinstance (layer : Layer) (c : ClassRef) : bool :=
  existsb (ClassRef_eqb c) (class_mro (node layer)).

(** [prefix + ("." if prefix else "") + name] *)
Definition sub_prefix (prefix name : string) : string :=
  prefix +:+ (if String.eqb prefix "" then "" else ".") +:+ name.

(** [module.named_modules()]: depth first, pre-order, the root under the
    empty name, children in declaration order under dotted paths. *)
Fixpoint named_modules_from (prefix : string) (addr : list nat) (m : Module)
  : list (string * Layer) :=
  (prefix, mkLayer addr m) ::
  (fix children (i : nat) (cs : list (string * Module)) :=
     match cs with
     | [] => []
     | (name, c) :: cs' =>
         named_modules_from (sub_prefix prefix name) (addr ++ [i]) c
           ++ children (S i) cs'
     end) 0%nat (match m with mkModule _ _ _ _ _ _ cs => cs end).

(** The part of the traversal below a node: its children from the [i]-th
    on. *)
Fixpoint named_children (prefix : string) (addr : list nat) (i : nat)
    (cs : list (string * Module)) : list (string * Layer) :=
  match cs with
  | [] => []
  | (name, c) :: cs' =>
      named_modules_from (sub_prefix prefix name) (addr ++ [i]) c
        ++ named_children prefix addr (S i) cs'
  end.

Definition named_modules (layer : Layer) : list (string * Layer) :=
  named_modules_from "" (address layer) (node layer).

(** [layer.named_parameters()]: for every module of [named_modules], its
    own parameters under [module_prefix + ("." if module_prefix else "") + k]. *)
Definition named_parameters (layer : Layer) : list (string * Tensor) :=
  flat_map (fun '(module_prefix, l) =>
              map (fun '(k, v) => (sub_prefix module_prefix k, v))
                  (_parameters (node l)))
           (named_modules layer).

(** The root of a tree as a reference. *)
Definition root (module : Module) : Layer := mkLayer [] module.

(** What a parameter or attribute slot can hold. *)
Inductive Entity :=
| ELayer (l : Layer)
| EParam (p : Tensor).

(** What [getattr] gives on a module: a parameter, a buffer or a child
    from its registries, or a value found by the ordinary lookup. *)
Inductive Attr :=
| AModule (m : Module)
| AParam (p : Tensor)
| ABuffer (b : Tensor)
| AValue (v : PyValue).

Definition set_modules (m : Module) (cs : list (string * Module)) : Module :=
  mkModule (class_name m) (class_mro m) (class_attrs m) (__dict__ m)
           (_parameters m) (_buffers m) cs.

(** The tree after [f] has been applied to the object at [addr]. *)
Fixpoint update_at (addr : list nat) (f : Module -> Module) (m : Module)
  : Module :=
  match addr with
  | [] => f m
  | i :: addr' =>
      set_modules m (alter (fun nc => (nc.1, update_at addr' f nc.2)) i (_modules m))
  end.

(** The object at [addr]. *)
Fixpoint deref (addr : list nat) (m : Module) : option Module :=
  match addr with
  | [] => Some m
  | i :: addr' =>
      match _modules m !! i with
      | Some (_, c) => deref addr' c
      | None => None
      end
  end.

(** [ModelParameterizedLayer] of [llmcompressor.core]. *)
Record ModelParameterizedLayer := mkModelParameterizedLayer {
  layer_name : string;
  layer : Entity;
  param_name : string;
  param : Entity
}.

(** ** Targets *)

(** [Union[str, List[str]]] *)
Inductive Targets :=
| TStr (s : string)
| TList (l : list string).

(** [if isinstance(targets, str): targets = [targets]] *)
Definition as_list (targets : Targets) : list string :=
  match targets with
  | TStr s => [s]
  | TList l => l
  end.

Definition ALL_TARGET := "__ALL__".
Definition ALL_PRUNABLE_TARGET := "__ALL_PRUNABLE__".
Definition ALL_QUANTIZABLE_TARGET := "__ALL_QUANTIZABLE__".

(** [targets == SENTINEL]: a list never equals a string. *)
Definition targets_eq_str (targets : Targets) (s : string) : bool :=
  match targets with
  | TStr t => String.eqb t s
  | TList _ => false
  end.

(** ** The host environment

    What the module imports and does not define itself. *)
Record Host := mkHost {
  (** [bool(re.match(pattern, name))] for a pattern that compiles. *)
  host_re_match : string -> string -> bool;
  (** [fix_fsdp_module_name] of [llmcompressor.utils.fsdp.context]. *)
  host_fix_fsdp_module_name : string -> string;
  (** [SequenceMatcher(None, a, b).find_longest_match(0, len(a), 0, len(b))],
      third component: the length of the block found. *)
  host_find_longest_match : string -> string -> nat;
  (** Optional classes, [None] when the import failed. *)
  QATLinear : option ClassRef;
  QATConv2d : option ClassRef;
  QATConv3d : option ClassRef;
  TransformerConv1D : option ClassRef
}.

Section Resolver.

Variable host : Host.

Local Abbreviation re_match := (host_re_match host).
Local Abbreviation fix_fsdp_module_name := (host_fix_fsdp_module_name host).
Local Abbreviation find_longest_match := (host_find_longest_match host).

(** The loop of [match_targets], [index] being [enumerate]'s counter. *)
Fixpoint match_targets_loop (name : string) (index : Z) (targets : list string)
  : bool * Z :=
  match targets with
  | [] => (false, -1)
  | target :: rest =>
      if String.eqb (Str.take 3 target) "re:" then
        let pattern := Str.drop 3 target in
        if re_match pattern name then (true, index)
        else match_targets_loop name (index + 1) rest
      else if String.eqb name target then (true, index)
      else match_targets_loop name (index + 1) rest
  end.

Definition match_targets (name : string) (targets : Targets) : bool * Z :=
  match_targets_loop name 0 (as_list targets).

Fixpoint match_class_loop (layer : Layer) (index : Z) (targets : list string)
  : bool * Z :=
  match targets with
  | [] => (false, -1)
  | target :: rest =>
      if String.eqb (class_name (node layer)) target then (true, index)
      else match_class_loop layer (index + 1) rest
  end.

Definition match_class (layer : Layer) (targets : Targets) : bool * Z :=
  match_class_loop layer 0 (as_list targets).

(** The inner loop of [get_default_params]: the first parameter that
    [named_parameters] yields under the name ["weight"]. *)
Definition default_param (layer : Layer) : option Tensor :=
  snd <$> find (fun np => String.eqb np.1 "weight") (named_parameters layer).

Definition get_default_params (layers : dict Layer) : dict Tensor :=
  fold_left (fun params '(name, layer) =>
               match default_param layer with
               | Some param => dict_set name param params
               | None => params
               end) layers [].

Definition get_terminal_layers (module : Module) : dict Layer :=
  dict_of_items
    (List.filter (fun nl => negb (1 <? length (named_modules nl.2))%nat)
            (named_modules (root module))).

(** [C and isinstance(layer, C)] *)
Definition and_isinstance (C : option ClassRef) (layer : Layer) : bool :=
  match C with
  | Some c => isinstance layer c
  | None => false
  end.

Definition is_prunable (layer : Layer) : bool :=
  isinstance layer Linear
  || isinstance layer _ConvNd
  || and_isinstance (QATLinear host) layer
  || and_isinstance (QATConv2d host) layer
  || and_isinstance (QATConv3d host) layer
  || and_isinstance (TransformerConv1D host) layer.

Definition get_prunable_layers (module : Module) : dict Layer :=
  dict_of_items
    (List.filter (fun nl => is_prunable nl.2) (named_modules (root module))).

Definition is_quantizable (layer : Layer) : bool :=
  isinstance layer Linear || isinstance layer _ConvNd.

Definition get_quantizable_layers (module : Module) : result (dict Layer) :=
  match QATLinear host with
  | None => Raise ImportError_quantization
  | Some _ =>
      Ok (dict_of_items
            (List.filter (fun nl => is_quantizable nl.2)
                    (named_modules (root module))))
  end.

(** [values if not params else get_default_params(values)] *)
Definition layers_or_default_params (params : bool) (values : dict Layer)
  : dict Entity :=
  if negb params then prod_map id ELayer <$> values
  else prod_map id EParam <$> get_default_params values.

(** The state of the walk: [resolved] and [targets_found]. *)
Definition walk_state : Type := dict Entity * list bool.

(** Lines 135-143: the name match and the class match of one node. *)
Definition visit_layer (targets : list string) (params : bool)
    (name : string) (layer : Layer) (st : walk_state) : walk_state :=
  let '(resolved, targets_found) := st in
  let '(match_, match_index) := match_targets name (TList targets) in
  if match_ && negb params then
    (dict_set name (ELayer layer) resolved,
     <[Z.to_nat match_index := true]> targets_found)
  else
    let '(match_, match_index) := match_class layer (TList targets) in
    if match_ then
      (dict_set name (ELayer layer) resolved,
       <[Z.to_nat match_index := true]> targets_found)
    else st.

(** Lines 146-154: one parameter of the node. *)
Definition visit_param (targets : list string) (params : bool)
    (name : string) (layer : Layer) (st : walk_state)
    (np : string * Tensor) : walk_state :=
  let '(resolved, targets_found) := st in
  let '(param_name, param) := np in
  if Str.contains dot param_name then st
  else
    let '(param_match, param_match_index) :=
      match_targets (name +:+ "." +:+ param_name) (TList targets) in
    if param_match then
      (dict_set name (if negb params then ELayer layer else EParam param)
                resolved,
       <[Z.to_nat param_match_index := true]> targets_found)
    else st.

(** The body of the loop over [module.named_modules()]. *)
Definition visit (targets : list string) (params : bool)
    (st : walk_state) (nl : string * Layer) : walk_state :=
  let name := fix_fsdp_module_name nl.1 in
  let layer := nl.2 in
  fold_left (visit_param targets params name layer)
            (named_parameters layer)
            (visit_layer targets params name layer st).

Definition walk (targets : list string) (module : Module) (params : bool)
  : walk_state :=
  fold_left (visit targets params) (named_modules (root module))
            ([], replicate (length targets) false).

(** [[target for found, target in zip(targets_found, targets) if not found]] *)
Definition missed_targets (targets_found : list bool) (targets : list string)
  : list string :=
  snd <$> List.filter (fun ft => negb ft.1) (zip targets_found targets).

Definition match_layers_params (targets : Targets) (module : Module)
    (params : bool) : result (dict Entity) :=
  if targets_eq_str targets ALL_TARGET then
    Ok (layers_or_default_params params (get_terminal_layers module))
  else if targets_eq_str targets ALL_PRUNABLE_TARGET then
    Ok (layers_or_default_params params (get_prunable_layers module))
  else if targets_eq_str targets ALL_QUANTIZABLE_TARGET then
    values ← get_quantizable_layers module;
    Ok (layers_or_default_params params values)
  else
    let targets := as_list targets in
    let '(resolved, targets_found) := walk targets module params in
    let missed := missed_targets targets_found targets in
    if (0 <? length missed)%nat then
      Raise (ValueError_targets_not_found missed)
    else Ok resolved.

Definition entity_isinstance (e : Entity) (c : ClassRef) : bool :=
  match e with
  | ELayer l => isinstance l c
  | EParam _ => false
  end.

Definition get_layers (targets : Targets) (module : Module)
    (exclude_internal_modules : bool) : result (dict Entity) :=
  layer_dict ← match_layers_params targets module false;
  if exclude_internal_modules then
    Ok (List.filter (fun nl => negb (entity_isinstance nl.2 InternalModule))
                    layer_dict)
  else Ok layer_dict.

Definition get_layer (target : string) (module : Module)
  : result (string * Entity) :=
  layers ← get_layers (TStr target) module false;
  match layers with
  | [nl] => Ok nl
  | _ => Raise (ValueError_expected_one target (length layers))
  end.

Definition get_params (targets : Targets) (module : Module)
  : result (dict Entity) :=
  match_layers_params targets module true.

Definition get_param (target : string) (module : Module)
  : result (string * Entity) :=
  params ← get_params (TStr target) module;
  match params with
  | [np] => Ok np
  | _ => Raise (ValueError_expected_one target (length params))
  end.

(** Modelled from the spec: [maybe_get_wrapped] of
    [llmcompressor.utils.fsdp.helpers] is not part of the sources at
    hand; section 4.6 gives "root parent if the target has no dot". *)
Definition maybe_get_wrapped (module : Module) : Layer := root module.

(** The ordinary lookup, [object.__getattribute__]: a data descriptor of
    the class, then the instance [__dict__], then any other attribute of
    the class.  [None] when it raises [AttributeError]. *)
Definition object_getattribute (m : Module) (name : string) : option PyValue :=
  match dict_get name (class_attrs m) with
  | Some (true, v) => Some v
  | on_class =>
      match dict_get name (__dict__ m) with
      | Some v => Some v
      | None => snd <$> on_class
      end
  end.

(** [Module.__getattr__], called when the ordinary lookup fails: the
    parameters, then the buffers, then the children. *)
Definition Module_getattr (m : Module) (name : string) : result Attr :=
  match dict_get name (_parameters m) with
  | Some p => Ok (AParam p)
  | None =>
      match dict_get name (_buffers m) with
      | Some b => Ok (ABuffer b)
      | None =>
          match dict_get name (_modules m) with
          | Some c => Ok (AModule c)
          | None => Raise (AttributeError name)
          end
      end
  end.

(** [getattr(parent_layer, attr)].  The parent is a module: [get_layer]
    resolves layers only, so the second case is never reached. *)
Definition getattr (parent_layer : Entity) (attr : string) : result Attr :=
  match parent_layer with
  | ELayer l =>
      match object_getattribute (node l) attr with
      | Some v => Ok (AValue v)
      | None => Module_getattr (node l) attr
      end
  | EParam _ => Raise (AttributeError attr)
  end.

(** [hasattr(layer, name)] *)
Definition hasattr (m : Module) (name : string) : bool :=
  match getattr (ELayer (root m)) name with
  | Ok _ => true
  | Raise _ => false
  end.

(** The branch of [Module.__setattr__(name, value)] for a module [value]:
    [remove_from(self.__dict__, self._parameters, self._buffers, ...)],
    then [modules[name] = value]. *)
Definition assign_module (p : Module) (name : string) (value : Module)
  : Module :=
  mkModule (class_name p) (class_mro p) (class_attrs p)
           (dict_del name (__dict__ p))
           (dict_del name (_parameters p))
           (dict_del name (_buffers p))
           (dict_set name value (_modules p)).

(** [setattr(parent_layer, attr, layer)] for a module [layer], as seen
    from the root: [Module.__setattr__] refuses a module under the name
    of a parameter, otherwise assigns it as a child. *)
Definition setattr (module : Module) (parent_layer : Entity) (attr : string)
    (layer : Module) : result Module :=
  match parent_layer with
  | ELayer l =>
      match dict_get attr (_parameters (node l)) with
      | Some _ => Raise (TypeError_parameter_expected attr)
      | None =>
          Ok (update_at (address l) (fun p => assign_module p attr layer)
                        module)
      end
  | EParam _ => Raise (AttributeError attr)
  end.

(** Lines 207-211 of [set_layer]. *)
Definition parent_of (target : string) (module : Module) : result Entity :=
  let parent_target := Str.join "." (removelast (Str.split dot target)) in
  if negb (String.eqb parent_target "") then
    nl ← get_layer parent_target module; Ok nl.2
  else Ok (ELayer (maybe_get_wrapped module)).

(** Returns the displaced object and the tree after the assignment.
    [summon_full_params_context] leaves the tree as it is. *)
Definition set_layer (target : string) (layer : Module) (module : Module)
  : result (Attr * Module) :=
  parent_layer ← parent_of target module;
  old_layer ← getattr parent_layer (List.last (Str.split dot target) "");
  module' ← setattr module parent_layer
                    (List.last (Str.split dot target) "") layer;
  Ok (old_layer, module').

Definition get_layers_params (targets : Targets) (module : Module)
  : result (dict ModelParameterizedLayer) :=
  params ← get_params targets module;
  layers ← get_layers targets module false;
  fold_left
    (fun acc '(name, param) =>
       parameterized_layers ← acc;
       match dict_get name layers with
       | Some l =>
           let param_layer :=
             {| layer_name := name; layer := l;
                param_name := name; param := param |} in
           Ok (dict_set name param_layer parameterized_layers)
       | None => Raise (KeyError name)
       end)
    params (Ok []).

(** One round of the loop of [get_matching_layer] over
    [(largest_substring, match)]. *)
Definition closer_match (name_to_match : string)
    (st : nat * option (string * Entity)) (nm : string * Entity)
  : nat * option (string * Entity) :=
  let '(largest_substring, match_) := st in
  let match_length := find_longest_match nm.1 name_to_match in
  if (largest_substring <? match_length)%nat then (match_length, Some nm)
  else st.

Definition get_matching_layer (target name_to_match : string)
    (module : Module) : result (option (string * Entity)) :=
  potential_matches ← get_layers (TStr target) module false;
  Ok (fold_left (closer_match name_to_match) potential_matches
                (0%nat, None)).2.

End Resolver.

(** ** Reading the claims

    Definitions that follow the words of the specification, to be compared
    with the functions above. *)

(** "a target beginning with the prefix [re:] matches iff its remainder,
    read as a regular expression, matches at position 0 of the name, and
    any other target matches iff it is exactly equal to the name". *)
Definition remainder (target : string) : string :=
  match target with
  | String _ (String _ (String _ rest)) => rest
  | _ => ""
  end.

Definition target_matches (host : Host) (name target : string) : bool :=
  if Str.starts_with "re:" target then host_re_match host (remainder target) name
  else String.eqb name target.

(** "the smallest index [i] whose target matches". *)
Definition first_match (host : Host) (name : string) (targets : list string)
    (i : nat) : Prop :=
  (exists t, targets !! i = Some t /\ target_matches host name t = true) /\
  forall j t, (j < i)%nat -> targets !! j = Some t ->
              target_matches host name t = false.

(** "the first target equal to the simple name of the layer's class". *)
Definition first_class_match (layer : Layer) (targets : list string) (i : nat)
  : Prop :=
  targets !! i = Some (class_name (node layer)) /\
  forall j, (j < i)%nat -> targets !! j <> Some (class_name (node layer)).

(** "no target matches the name". *)
Definition no_name_match (host : Host) (name : string) (targets : list string)
  : Prop :=
  forall t, In t targets -> target_matches host name t = false.

(** The visit of node [nl] marks target index [i] found: by a name match
    when layers are asked for, by a class match when the name did not
    record the node, or by a parameter the node owns, under the compound
    name. *)
Definition marks (host : Host) (targets : list string) (params : bool)
    (nl : string * Layer) (i : nat) : Prop :=
  let name := host_fix_fsdp_module_name host nl.1 in
  (params = false /\ first_match host name targets i) \/
  ((params = true \/ no_name_match host name targets) /\
   first_class_match nl.2 targets i) \/
  (exists np, In np (named_parameters nl.2) /\
              Str.contains dot np.1 = false /\
              first_match host (name +:+ "." +:+ np.1) targets i).

(** Target index [i] is marked found at some node of the traversal. *)
Definition marked (host : Host) (targets : list string) (module : Module)
    (params : bool) (i : nat) : Prop :=
  exists nl, In nl (named_modules (root module)) /\ marks host targets params nl i.

(** What the loop of [get_matching_layer] holds after the candidates
    [seen]: nothing yet and no candidate with a common block, or the first
    of the candidates with the longest common block. *)
Definition closest_so_far (host : Host) (name_to_match : string)
    (seen : list (string * Entity)) (st : nat * option (string * Entity))
  : Prop :=
  let block nm := host_find_longest_match host nm.1 name_to_match in
  match st.2 with
  | None => st.1 = 0%nat /\ forall c, In c seen -> block c = 0%nat
  | Some best =>
      st.1 = block best /\ (0 < block best)%nat /\
      exists i, seen !! i = Some best /\
                (forall c, In c seen -> (block c <= block best)%nat) /\
                (forall j c, (j < i)%nat -> seen !! j = Some c ->
                             (block c < block best)%nat)
  end.

(** A reference is located in [module] when the object it carries is the
    one found at its address. *)
Definition located (module : Module) (e : Entity) : Prop :=
  exists l, e = ELayer l /\ deref (address l) module = Some (node l).

(** The parent that [set_layer] resolves for [target] sits at the same
    place in [module'] as in [module]. *)
Definition same_parent (host : Host) (target : string)
    (module module' : Module) : Prop :=
  forall p, parent_of host target module = Ok (ELayer p) ->
            exists p', parent_of host target module' = Ok (ELayer p') /\
                       address p' = address p.

(** Every child of every node of the tree sits under a non-empty attribute
    name, as [add_module] and [register_module] demand. *)
Fixpoint child_names_nonempty (m : Module) : bool :=
  match m with
  | mkModule _ _ _ _ _ _ cs =>
      (fix children (cs : list (string * Module)) : bool :=
         match cs with
         | [] => true
         | (name, c) :: cs' =>
             negb (String.eqb name "") && child_names_nonempty c
             && children cs'
         end) cs
  end.

(** The attribute names of the children are those [add_module] accepts
    (non-empty, without a dot) and, the children being a dict, distinct
    among siblings; so down the whole tree. *)
Fixpoint proper_names (m : Module) : bool :=
  match m with
  | mkModule _ _ _ _ _ _ cs =>
      (fix children (cs : list (string * Module)) : bool :=
         match cs with
         | [] => true
         | (name, c) :: cs' =>
             negb (String.eqb name "") && negb (Str.contains dot name)
             && negb (existsb (String.eqb name) (map fst cs'))
             && proper_names c && children cs'
         end) cs
  end.

(** Empty, or a dot and more: what follows a segment of a dotted path. *)
Definition dot_tail (x : string) : Prop :=
  x = "" \/ exists y, x = String dot y.

(** "for each layer, its directly-owned parameter literally named
    [weight] if one exists; layers without one are dropped". *)
Definition own_weight (nl : string * Layer) : option (string * Tensor) :=
  match dict_get "weight" (_parameters (node nl.2)) with
  | Some w => Some (nl.1, w)
  | None => None
  end.

(** "some node or parameter literally matches that string": the node by
    its name or by the name of its class, a parameter the node owns by its
    compound name. *)
Definition literally_matches (host : Host) (s : string) (nl : string * Layer)
  : Prop :=
  let name := host_fix_fsdp_module_name host nl.1 in
  name = s \/
  class_name (node nl.2) = s \/
  exists np, In np (named_parameters nl.2) /\
             Str.contains dot np.1 = false /\
             name +:+ "." +:+ np.1 = s.

Definition sentinels : list string :=
  [ALL_TARGET; ALL_PRUNABLE_TARGET; ALL_QUANTIZABLE_TARGET].

(** "a matched target": the target matches the node by its name or by the
    name of its class, or one of the parameters the node owns by its
    compound name. *)
Definition target_matched (host : Host) (target : string)
    (nl : string * Layer) : bool :=
  let name := host_fix_fsdp_module_name host nl.1 in
  target_matches host name target
  || String.eqb (class_name (node nl.2)) target
  || existsb (fun np => negb (Str.contains dot np.1)
                        && target_matches host (name +:+ "." +:+ np.1) target)
             (named_parameters nl.2).

(** The target is matched at some node of the tree; "unmatched" and "the
    candidate set is empty" when it is not. *)
Definition matched_somewhere (host : Host) (target : string) (module : Module)
  : bool :=
  existsb (target_matched host target) (named_modules (root module)).

(** What resolves a literal target at a node: the name of the node when
    layers are asked for, the name of its class, or the compound name of a
    parameter the node owns. *)
Definition literally_resolves (host : Host) (s : string) (params : bool)
    (nl : string * Layer) : Prop :=
  let name := host_fix_fsdp_module_name host nl.1 in
  (params = false /\ name = s) \/
  class_name (node nl.2) = s \/
  exists np, In np (named_parameters nl.2) /\
             Str.contains dot np.1 = false /\
             name +:+ "." +:+ np.1 = s.

(** ** A host without sharding and small trees to run the functions on *)

(** [re.match] on patterns without metacharacters: the pattern is a prefix
    of the name. *)
Definition re_match_literal (pattern name : string) : bool :=
  Str.starts_with pattern name.

Fixpoint common_prefix_length (a b : string) : nat :=
  match a, b with
  | String x a', String y b' =>
      if Ascii.eqb x y then S (common_prefix_length a' b') else 0%nat
  | _, _ => 0%nat
  end.

Fixpoint longest_prefix_within (a b : string) : nat :=
  match b with
  | EmptyString => 0%nat
  | String _ b' => Nat.max (common_prefix_length a b) (longest_prefix_within a b')
  end.

(** The length of the longest common contiguous block of [a] and [b], which
    is what [find_longest_match] reports without junk. *)
Fixpoint longest_common_block (a b : string) : nat :=
  match a with
  | EmptyString => 0%nat
  | String _ a' => Nat.max (longest_prefix_within a b) (longest_common_block a' b)
  end.

Definition plain_host (qat : option ClassRef) : Host :=
  {| host_re_match := re_match_literal;
     host_fix_fsdp_module_name := fun name => name;
     host_find_longest_match := longest_common_block;
     QATLinear := qat; QATConv2d := None; QATConv3d := None;
     TransformerConv1D := None |}.

(** A module as [Module.__init__] leaves it, with the parameters and the
    children registered afterwards: [forward] on the class, the flag
    [training] and the registries in [__dict__], no buffer. *)
Definition nn_module (cls : string) (mro : list ClassRef) (ps : dict Tensor)
    (cs : list (string * Module)) : Module :=
  mkModule cls mro
    [("forward", (false, pyvalue 0))]
    [("training", pyvalue 1); ("_parameters", pyvalue 2);
     ("_buffers", pyvalue 3); ("_modules", pyvalue 4)]
    ps [] cs.

Definition leaf (cls : string) (mro : list ClassRef) (ps : dict Tensor)
  : Module :=
  nn_module cls mro ps [].

Definition linear (w : nat) : Module :=
  leaf "Linear" [Linear] [("weight", tensor w); ("bias", tensor (S w))].

(** A model with one block holding one dense layer, and a replacement
    whose class happens to be called like the block's attribute. *)
Definition block_model : Module :=
  nn_module "Model" [] []
    [("block", nn_module "Block" [] [] [("fc", linear 1)])].

Definition lowercase_block : Module := leaf "block" [] [].

(** A model with a child registered under the name of a sentinel. *)
Definition sentinel_model : Module :=
  nn_module "Model" [] [] [("__ALL__", leaf "Leaf" [] [])].

(** A normalization layer: a weight and a buffer. *)
Definition batch_norm : Module :=
  mkModule "BatchNorm" []
    [("forward", (false, pyvalue 0))]
    [("training", pyvalue 1); ("_parameters", pyvalue 2);
     ("_buffers", pyvalue 3); ("_modules", pyvalue 4)]
    [("weight", tensor 5)] [("running_mean", tensor 6)] [].

(** Two decoder layers; the query and value projections are dense layers,
    the key projection of layer 3 is the reference. *)
Definition projection (cls : string) (w : nat) : Module :=
  leaf cls [Linear] [("weight", tensor w)].

Definition decoder : Module :=
  nn_module "Decoder" [] []
    [("model",
      nn_module "Model" [] []
        [("layers",
          nn_module "ModuleList" [] []
            [("3", nn_module "Layer" [] []
                     [("self_attn",
                       nn_module "Attention" [] []
                         [("q_proj", projection "Proj" 1);
                          ("k_proj", projection "KeyProj" 2)])]);
             ("7", nn_module "Layer" [] []
                     [("self_attn",
                       nn_module "Attention" [] []
                         [("v_proj", projection "Proj" 3)])])])])].

(** The layers of the projection example: one with weight and bias, one
    with a bias only. *)
Definition weight_and_bias : dict Layer :=
  [("a", root (leaf "A" [] [("weight", tensor 1); ("bias", tensor 2)]));
   ("b", root (leaf "B" [] [("bias", tensor 3)]))].

(** ** Direct lookup and the sharding hint *)

Section AttrGetter.

(** [getattr] on an object that is not a module: a tensor or an opaque
    value. *)
Variable foreign_getattr : Attr -> string -> result Attr.

(** One step of [operator.attrgetter]: [obj = getattr(obj, name)]. *)
Definition attr_step (obj : result Attr) (name : string) : result Attr :=
  o ← obj;
  match o with
  | AModule m => getattr (ELayer (root m)) name
  | _ => foreign_getattr o name
  end.

(** [attrgetter(layer_name)(module)]: the name is split at the dots and
    the attributes are followed one by one. *)
Definition get_layer_by_name (layer_name : string) (module : Module)
  : result Attr :=
  fold_left attr_step (Str.split dot layer_name) (Ok (AModule module)).

End AttrGetter.

(** Objects other than modules without any attribute. *)
Definition no_foreign_attr (o : Attr) (name : string) : result Attr :=
  Raise (AttributeError name).

Section NoSplit.

(** [model._get_no_split_modules("auto")] of [transformers]. *)
Variable _get_no_split_modules : Module -> list string.

Definition get_no_split_params (model : Module) : Targets :=
  let model := node (maybe_get_wrapped model) in
  let no_split_modules := _get_no_split_modules model in
  if (length no_split_modules <=? 0)%nat then TStr ALL_TARGET
  else TList no_split_modules.

End NoSplit.

(** ** Quantization in the tree *)

(** [torch.quantization.FakeQuantize] *)
Definition FakeQuantize : ClassRef := OtherClass "FakeQuantize".

Section Qat.

(** [is_module_quantized] of [compressed_tensors.quantization.utils]. *)
Variable is_module_quantized : Module -> bool.

(** The loop of [qat_active], which returns at the first hit. *)
Fixpoint qat_active_loop (layers : list (string * Layer)) : bool :=
  match layers with
  | [] => false
  | (_, layer) :: rest =>
      if isinstance layer FakeQuantize then true
      else if is_module_quantized (node layer) then true
      else qat_active_loop rest
  end.

Definition qat_active (module : Module) : bool :=
  qat_active_loop (named_modules (root module)).

End Qat.

(** The node has no child. *)
Definition is_leaf (layer : Layer) : bool :=
  match _modules (node layer) with
  | [] => true
  | _ :: _ => false
  end.

(** The last own parameter of the node whose compound name matches a
    target. *)
Definition last_param_match (host : Host) (targets : list string)
    (name : string) (layer : Layer) : option (string * Tensor) :=
  find (fun np => negb (Str.contains dot np.1)
                  && (match_targets host (name +:+ "." +:+ np.1)
                                    (TList targets)).1)
       (rev (named_parameters layer)).

(** The names of the registries in [__dict__].  A module assigned under
    one of them takes the registry itself out of [__dict__], and what is
    left is no longer a module that keeps its registries: the statements
    about the tree after [set_layer] leave these names out. *)
Definition registry_names : list string :=
  ["_parameters"; "_buffers"; "_modules"].

(** Something that [getattr] finds before a child bears the name: an
    attribute of the class, an instance attribute, a parameter or a
    buffer. *)
Definition shadowed (ca : dict (bool * PyValue)) (di : dict PyValue)
    (ps bs : dict Tensor) (name : string) : bool :=
  existsb (String.eqb name) (keys ca) || existsb (String.eqb name) (keys di)
  || existsb (String.eqb name) (keys ps) || existsb (String.eqb name) (keys bs).

(** No child of a node is shadowed, as [add_module] and [__setattr__] see
    to; so down the tree. *)
Fixpoint children_reachable (m : Module) : bool :=
  match m with
  | mkModule _ _ ca di ps bs cs =>
      (fix children (cs : list (string * Module)) : bool :=
         match cs with
         | [] => true
         | (name, c) :: cs' =>
             negb (shadowed ca di ps bs name)
             && children_reachable c && children cs'
         end) cs
  end.

(** Following the segments [segs] from [m], each the name of a child that
    [getattr] gives, leads to [q]. *)
Fixpoint descends (segs : list string) (m q : Module) : Prop :=
  match segs with
  | [] => m = q
  | seg :: segs' =>
      exists c, getattr (ELayer (root m)) seg = Ok (AModule c) /\
                descends segs' c q
  end.

(** * Properties *)

(** ** Strings and dictionaries *)

Lemma substring_whole (s : string) : substring 0 (String.length s) s = s.
Proof. induction s as [|a s IH]; simpl; [reflexivity | now rewrite IH]. Qed.

Lemma take3_is_prefix (t : string) :
  String.eqb (Str.take 3 t) "re:" = Str.starts_with "re:" t.
Proof.
  unfold Str.take.
  destruct t as [|a [|b [|c rest]]]; try reflexivity.
  all: cbn [substring String.eqb Str.starts_with];
    try replace (substring 0 0 rest) with "" by (destruct rest; reflexivity);
    rewrite ?(Ascii.eqb_sym a "r"), ?(Ascii.eqb_sym b "e"),
      ?(Ascii.eqb_sym c ":");
    repeat match goal with
           | |- context [(?x =? ?y)%char] => destruct (x =? y)%char
           end; reflexivity.
Qed.

Lemma drop3_is_remainder (t : string) : Str.drop 3 t = remainder t.
Proof.
  unfold Str.drop.
  destruct t as [|a [|b [|c rest]]]; simpl; try reflexivity.
  rewrite Nat.sub_0_r. apply substring_whole.
Qed.

(** ** [match_targets] *)

Section MatchTargets.

Variable host : Host.

Lemma match_targets_loop_cons name k t rest :
  match_targets_loop host name k (t :: rest) =
  if target_matches host name t then (true, k)
  else match_targets_loop host name (k + 1) rest.
Proof.
  simpl. unfold target_matches.
  rewrite take3_is_prefix, drop3_is_remainder.
  destruct (Str.starts_with "re:" t); reflexivity.
Qed.

Lemma first_match_unique name l i j :
  first_match host name l i -> first_match host name l j -> i = j.
Proof.
  intros [(t & Ht & Hm) Hi] [(u & Hu & Hn) Hj].
  destruct (Nat.lt_trichotomy i j) as [Hlt|[->|Hlt]]; [|reflexivity|].
  - rewrite (Hj _ _ Hlt Ht) in Hm. discriminate.
  - rewrite (Hi _ _ Hlt Hu) in Hn. discriminate.
Qed.

Lemma first_match_here name t rest :
  target_matches host name t = true -> first_match host name (t :: rest) 0.
Proof. intros Ht. split; [exists t; auto | intros j u Hj; lia]. Qed.

Lemma first_match_later name t rest n :
  target_matches host name t = false ->
  first_match host name rest n <-> first_match host name (t :: rest) (S n).
Proof.
  intros Ht. unfold first_match. simpl. split.
  - intros [Hn Hlt]. split; [exact Hn|].
    intros [|j] u Hj Hu; simpl in Hu; [congruence|].
    apply (Hlt j); [lia | exact Hu].
  - intros [Hn Hlt]. split; [exact Hn|].
    intros j u Hj Hu. apply (Hlt (S j)); [lia | exact Hu].
Qed.

Lemma match_targets_loop_spec name l : forall k,
  match match_targets_loop host name k l with
  | (true, i) => exists n, i = k + Z.of_nat n /\ first_match host name l n
  | (false, i) =>
      i = -1 /\ forall t, In t l -> target_matches host name t = false
  end.
Proof.
  induction l as [|t rest IH]; intros k.
  - simpl. split; [reflexivity | intros t []].
  - rewrite match_targets_loop_cons.
    destruct (target_matches host name t) eqn:Ht.
    + exists 0%nat. split; [lia | now apply first_match_here].
    + specialize (IH (k + 1)).
      destruct (match_targets_loop host name (k + 1) rest) as [[|] i].
      * destruct IH as (n & -> & Hn). exists (S n). split; [lia|].
        now apply first_match_later.
      * destruct IH as [-> Hnone]. split; [reflexivity|].
        intros u [<-|Hu]; auto.
Qed.

End MatchTargets.


(** ** [match_class] *)

Lemma match_class_loop_spec (layer : Layer) (l : list string) : forall k,
  match match_class_loop layer k l with
  | (true, i) =>
      exists n : nat,
        i = k + Z.of_nat n /\ l !! n = Some (class_name (node layer)) /\
        forall j, (j < n)%nat -> l !! j <> Some (class_name (node layer))
  | (false, i) => i = -1 /\ ~ In (class_name (node layer)) l
  end.
Proof.
  induction l as [|t rest IH]; intros k; simpl.
  - split; [reflexivity | tauto].
  - destruct (String.eqb_spec (class_name (node layer)) t) as [<-|Hne].
    + exists 0%nat. split; [lia|]. split; [reflexivity | intros j Hj; lia].
    + specialize (IH (k + 1)).
      destruct (match_class_loop layer (k + 1) rest) as [[|] i].
      * destruct IH as (n & -> & Hn & Hlt). exists (S n).
        split; [lia|]. split; [exact Hn|].
        intros [|j] Hj; simpl; [congruence | apply Hlt; lia].
      * destruct IH as [-> Hnone]. split; [reflexivity|].
        intros [E|Hin]; [congruence | tauto].
Qed.


(** ** The walk of [match_layers_params] *)

Lemma dict_get_set {V} (k : string) (v : V) (d : dict V) :
  dict_get k (dict_set k v d) = Some v.
Proof.
  induction d as [|[k' v'] d IH]; simpl.
  - now rewrite String.eqb_refl.
  - destruct (String.eqb k' k) eqn:E; simpl; now rewrite E.
Qed.

Lemma insert_true_lookup (found : list bool) (n i : nat) :
  <[n:=true]> found !! i = Some true <->
  found !! i = Some true \/ (i = n /\ (n < length found)%nat).
Proof.
  destruct (decide (n = i)) as [->|Hne].
  - destruct (decide (i < length found)%nat) as [Hlt|Hge].
    + rewrite list_lookup_insert_eq by exact Hlt. tauto.
    + rewrite list_insert_ge by lia. split; [tauto|].
      intros [H|[_ H]]; [exact H | lia].
  - rewrite list_lookup_insert_ne by exact Hne. split; [tauto|].
    intros [H|[-> _]]; [exact H | congruence].
Qed.

Lemma first_match_lt host name l i :
  first_match host name l i -> (i < length l)%nat.
Proof. intros [(t & Ht & _) _]. eapply lookup_lt_Some; eauto. Qed.

Lemma first_class_match_lt layer l i :
  first_class_match layer l i -> (i < length l)%nat.
Proof. intros [Ht _]. eapply lookup_lt_Some; eauto. Qed.

Lemma first_class_match_unique layer l i j :
  first_class_match layer l i -> first_class_match layer l j -> i = j.
Proof.
  intros [Hi Hlti] [Hj Hltj].
  destruct (Nat.lt_trichotomy i j) as [H|[->|H]]; [|reflexivity|].
  - now apply Hltj in H.
  - now apply Hlti in H.
Qed.

Section Walk.

Variable host : Host.
Variable targets : list string.
Variable params : bool.

Local Abbreviation fix_name := (host_fix_fsdp_module_name host).

(** The two matchers in the terms of the claims. *)
Lemma match_targets_cases name :
  match match_targets host name (TList targets) with
  | (true, i) =>
      exists n : nat, i = Z.of_nat n /\ first_match host name targets n
  | (false, _) => no_name_match host name targets
  end.
Proof.
  unfold match_targets. simpl.
  pose proof (match_targets_loop_spec host name targets 0) as H.
  destruct (match_targets_loop host name 0 targets) as [[|] i].
  - destruct H as (n & -> & Hn). exists n. split; [lia | exact Hn].
  - exact (proj2 H).
Qed.

Lemma match_class_cases layer :
  match match_class layer (TList targets) with
  | (true, i) =>
      exists n : nat, i = Z.of_nat n /\ first_class_match layer targets n
  | (false, _) => ~ In (class_name (node layer)) targets
  end.
Proof.
  unfold match_class. simpl.
  pose proof (match_class_loop_spec layer targets 0) as H.
  destruct (match_class_loop layer 0 targets) as [[|] i].
  - destruct H as (n & -> & Hn). exists n. split; [lia | exact Hn].
  - exact (proj2 H).
Qed.

Lemma no_name_match_first name i :
  no_name_match host name targets -> ~ first_match host name targets i.
Proof.
  intros Hnone [(t & Ht & Hm) _].
  apply list_elem_of_lookup_2, list_elem_of_In in Ht.
  rewrite (Hnone _ Ht) in Hm. discriminate.
Qed.

Lemma no_class_match_first layer i :
  ~ In (class_name (node layer)) targets ->
  ~ first_class_match layer targets i.
Proof.
  intros Hnone [Ht _]. apply Hnone, list_elem_of_In.
  eapply list_elem_of_lookup_2; eauto.
Qed.

(** What [visit_layer] does, case by case. *)
Lemma visit_layer_cases name layer resolved found :
  (exists i, params = false /\ first_match host name targets i /\
             visit_layer host targets params name layer (resolved, found)
             = (dict_set name (ELayer layer) resolved, <[i:=true]> found)) \/
  (exists j, (params = true \/ no_name_match host name targets) /\
             first_class_match layer targets j /\
             visit_layer host targets params name layer (resolved, found)
             = (dict_set name (ELayer layer) resolved, <[j:=true]> found)) \/
  ((params = true \/ no_name_match host name targets) /\
   ~ In (class_name (node layer)) targets /\
   visit_layer host targets params name layer (resolved, found)
   = (resolved, found)).
Proof.
  unfold visit_layer.
  pose proof (match_targets_cases name) as Hn.
  pose proof (match_class_cases layer) as Hc.
  destruct (match_targets host name (TList targets)) as [m i].
  destruct (match_class layer (TList targets)) as [c j].
  assert (m && negb params = false ->
          params = true \/ no_name_match host name targets) as Helse.
  { destruct m, params; simpl; auto; discriminate. }
  destruct (m && negb params) eqn:E.
  - apply andb_true_iff in E as [-> Hp]. apply negb_true_iff in Hp.
    destruct Hn as (n & -> & Hn). left. exists n.
    rewrite Nat2Z.id. auto.
  - right. destruct c.
    + destruct Hc as (n & -> & Hc). left. exists n.
      rewrite Nat2Z.id. auto.
    + right. auto.
Qed.

End Walk.


(** A loop whose rounds only ever set flags: after the loop a flag is set
    iff it was set before or some round set it. *)
Lemma fold_flags {X} (step : walk_state -> X -> walk_state)
    (P : X -> nat -> Prop) (n : nat) :
  (forall st x, length st.2 = n ->
     length (step st x).2 = n /\
     forall i, (step st x).2 !! i = Some true <->
               st.2 !! i = Some true \/ P x i) ->
  forall xs st, length st.2 = n ->
    length (fold_left step xs st).2 = n /\
    forall i, (fold_left step xs st).2 !! i = Some true <->
              st.2 !! i = Some true \/ exists x, In x xs /\ P x i.
Proof.
  intros Hstep xs. induction xs as [|x xs IH]; intros st Hlen; simpl.
  - split; [exact Hlen|]. intros i. split; [tauto|].
    intros [H|(x & [] & _)]. exact H.
  - destruct (Hstep st x Hlen) as [Hlen' Hx].
    destruct (IH _ Hlen') as [Hlen'' Hxs]. split; [exact Hlen''|].
    intros i. rewrite Hxs, Hx. split.
    + intros [[H|H]|(y & Hy & H)]; eauto 6.
    + intros [H|(y & [<-|Hy] & H)]; eauto 6.
Qed.

Section WalkFlags.

Variable host : Host.
Variable targets : list string.
Variable params : bool.

Lemma visit_layer_flags name layer st :
  length st.2 = length targets ->
  length (visit_layer host targets params name layer st).2 = length targets /\
  forall i,
    (visit_layer host targets params name layer st).2 !! i = Some true <->
    st.2 !! i = Some true \/
    (params = false /\ first_match host name targets i) \/
    ((params = true \/ no_name_match host name targets) /\
     first_class_match layer targets i).
Proof.
  destruct st as [resolved found]. intros Hlen. simpl in Hlen.
  destruct (visit_layer_cases host targets params name layer resolved found)
    as [(n & Hp & Hn & ->)|[(n & Helse & Hn & ->)|(Helse & Hnone & ->)]];
    simpl; rewrite ?length_insert; (split; [exact Hlen|]); intros i;
    rewrite ?insert_true_lookup.
  - split.
    + intros [H|[-> _]]; auto.
    + intros [H|[[_ H]|[[Hp'|Hnm] _]]]; auto.
      * right. split; [eapply first_match_unique; eauto|].
        rewrite Hlen. eapply first_match_lt; eauto.
      * congruence.
      * now apply (no_name_match_first _ _ _ n) in Hnm.
  - split.
    + intros [H|[-> _]]; auto.
    + intros [H|[[Hp' H]|[_ H]]]; auto.
      * destruct Helse as [Hp|Hnm]; [congruence|].
        now apply (no_name_match_first _ _ _ i) in Hnm.
      * right. split; [eapply first_class_match_unique; eauto|].
        rewrite Hlen. eapply first_class_match_lt; eauto.
  - split; [tauto|].
    intros [H|[[Hp' H]|[_ H]]]; auto.
    + destruct Helse as [Hp|Hnm]; [congruence|].
      now apply (no_name_match_first _ _ _ i) in Hnm.
    + now apply (no_class_match_first _ _ i) in Hnone.
Qed.

Lemma visit_param_flags name layer st np :
  length st.2 = length targets ->
  length (visit_param host targets params name layer st np).2
  = length targets /\
  forall i,
    (visit_param host targets params name layer st np).2 !! i = Some true <->
    st.2 !! i = Some true \/
    (Str.contains dot np.1 = false /\
     first_match host (name +:+ "." +:+ np.1) targets i).
Proof.
  destruct st as [resolved found], np as [param_name param].
  unfold visit_param. simpl. intros Hlen.
  destruct (Str.contains dot param_name).
  { simpl. split; [exact Hlen|]. intros i. split; [tauto|].
    intros [H|[H _]]; [exact H | discriminate]. }
  pose proof (match_targets_cases host targets
                (name +:+ "." +:+ param_name)) as Hm.
  destruct (match_targets host (name +:+ "." +:+ param_name) (TList targets))
    as [[|] r]; simpl.
  - destruct Hm as (n & -> & Hn). rewrite Nat2Z.id, length_insert.
    split; [exact Hlen|]. intros i. rewrite insert_true_lookup. split.
    + intros [H|[-> _]]; auto.
    + intros [H|[_ H]]; auto.
      right. split; [eapply first_match_unique; eauto|].
      rewrite Hlen. eapply first_match_lt; eauto.
  - split; [exact Hlen|]. intros i. split; [tauto|].
    intros [H|[_ H]]; [exact H|].
    now apply (no_name_match_first _ _ _ i) in Hm.
Qed.

Lemma visit_flags st nl :
  length st.2 = length targets ->
  length (visit host targets params st nl).2 = length targets /\
  forall i, (visit host targets params st nl).2 !! i = Some true <->
            st.2 !! i = Some true \/ marks host targets params nl i.
Proof.
  intros Hlen. unfold visit.
  destruct (visit_layer_flags (host_fix_fsdp_module_name host nl.1)
              nl.2 st Hlen) as [Hlen' Hl].
  destruct (fold_flags
              (visit_param host targets params
                 (host_fix_fsdp_module_name host nl.1) nl.2)
              (fun np i =>
                 Str.contains dot np.1 = false /\
                 first_match host
                   (host_fix_fsdp_module_name host nl.1 +:+ "." +:+ np.1)
                   targets i)
              (length targets)
              (fun st np => visit_param_flags _ _ st np)
              (named_parameters nl.2) _ Hlen') as [Hlen'' Hp].
  split; [exact Hlen''|]. intros i. rewrite Hp, Hl. unfold marks.
  split.
  - intros [[H|[H|H]]|(np & Hin & H)]; eauto 8.
  - intros [H|[H|[H|(np & Hin & H)]]]; eauto 8.
Qed.

(** The flags at the end of the walk. *)
Lemma walk_flags module :
  length (walk host targets module params).2 = length targets /\
  forall i, (walk host targets module params).2 !! i = Some true <->
            marked host targets module params i.
Proof.
  unfold walk.
  destruct (fold_flags (visit host targets params)
              (marks host targets params) (length targets)
              visit_flags (named_modules (root module))
              ([], replicate (length targets) false))
    as [Hlen H]; [apply length_replicate|].
  split; [exact Hlen|]. intros i. rewrite H. unfold marked. simpl.
  split; [|auto].
  intros [Hi|Hi]; [|exact Hi].
  apply lookup_replicate in Hi as [Hi _]. discriminate.
Qed.

End WalkFlags.

(** ** The unresolved-target error *)

Lemma missed_targets_cons f found t l :
  missed_targets (f :: found) (t :: l) =
  (if f then [] else [t]) ++ missed_targets found l.
Proof. unfold missed_targets. simpl. now destruct f. Qed.

Lemma StronglySorted_lt_succ (idx : list nat) :
  StronglySorted lt idx -> StronglySorted lt (map S idx).
Proof.
  induction 1 as [|i idx Hs IH Hall]; simpl; constructor; [exact IH|].
  rewrite List.Forall_forall in *. intros j Hj.
  apply in_map_iff in Hj as (k & <- & Hk). apply Hall in Hk. lia.
Qed.

(** The list built from [zip(targets_found, targets)] holds the targets at
    the indices whose flag is still false, each once, in order. *)
Lemma missed_targets_spec (found : list bool) : forall l : list string,
  length found = length l ->
  exists idx,
    StronglySorted lt idx /\
    (forall i, In i idx <-> found !! i = Some false) /\
    Forall2 (fun i t => l !! i = Some t) idx (missed_targets found l).
Proof.
  induction found as [|f found IH]; intros [|t l] Hlen; try discriminate.
  - exists []. split; [constructor|]. split; [|constructor].
    intros i. simpl. split; [tauto | discriminate].
  - injection Hlen as Hlen. destruct (IH l Hlen) as (idx & Hs & Hin & Hall).
    rewrite missed_targets_cons.
    assert (Forall2 (fun i u => (t :: l) !! i = Some u) (map S idx)
                    (missed_targets found l)) as Hall'.
    { apply Forall2_fmap_l. eapply Forall2_impl; [exact Hall|]. auto. }
    assert (forall i, In i (map S idx) <->
                      exists j, i = S j /\ found !! j = Some false) as Hin'.
    { intros i. rewrite in_map_iff. split.
      - intros (j & <- & Hj). exists j. now rewrite <- Hin.
      - intros (j & -> & Hj). exists j. now rewrite Hin. }
    destruct f.
    + exists (map S idx). split; [now apply StronglySorted_lt_succ|].
      split; [|exact Hall'].
      intros i. rewrite Hin'. destruct i as [|i]; simpl.
      * split; [intros (j & E & _); discriminate | discriminate].
      * split; [intros (j & [= ->] & H); exact H | eauto].
    + exists (0%nat :: map S idx). split; [|split].
      * constructor; [now apply StronglySorted_lt_succ|].
        rewrite List.Forall_forall. intros j Hj.
        apply in_map_iff in Hj as (k & <- & _). lia.
      * intros i. simpl. rewrite Hin'. destruct i as [|i]; simpl.
        -- split; auto.
        -- split.
           ++ intros [E|(j & [= ->] & H)]; [discriminate | exact H].
           ++ eauto.
      * constructor; [reflexivity | exact Hall'].
Qed.

Lemma missed_targets_nil (found : list bool) : forall l : list string,
  length found = length l ->
  missed_targets found l = [] <-> forall i, found !! i <> Some false.
Proof.
  intros l Hlen. destruct (missed_targets_spec found l Hlen)
    as (idx & _ & Hin & Hall).
  split.
  - intros E i Hi. rewrite E in Hall. apply Forall2_nil_inv_r in Hall.
    subst idx. now apply Hin in Hi.
  - intros Hnone. destruct idx as [|i idx].
    + now apply Forall2_nil_inv_l in Hall.
    + exfalso. apply (Hnone i), Hin. now left.
Qed.

Lemma flag_false_iff (found : list bool) (i : nat) :
  found !! i = Some false <->
  (i < length found)%nat /\ found !! i <> Some true.
Proof.
  split.
  - intros H. split; [eapply lookup_lt_Some; eauto | congruence].
  - intros [Hlt Hne]. apply lookup_lt_is_Some_2 in Hlt as [[|] Hb]; congruence.
Qed.

(** Past the three sentinels, the call is the walk followed by the check
    of the flags. *)
Lemma match_layers_params_walk (host : Host) (targets : Targets)
    (module : Module) (params : bool) :
  targets_eq_str targets ALL_TARGET = false ->
  targets_eq_str targets ALL_PRUNABLE_TARGET = false ->
  targets_eq_str targets ALL_QUANTIZABLE_TARGET = false ->
  match_layers_params host targets module params =
  let st := walk host (as_list targets) module params in
  match missed_targets st.2 (as_list targets) with
  | [] => Ok st.1
  | missed => Raise (ValueError_targets_not_found missed)
  end.
Proof.
  intros H1 H2 H3. unfold match_layers_params. rewrite H1, H2, H3.
  destruct (walk host (as_list targets) module params) as [resolved found].
  simpl. now destruct (missed_targets found (as_list targets)).
Qed.

(** A target index is marked only at a node that its target matches. *)
Lemma marks_matched (host : Host) (targets : list string) (params : bool)
    (nl : string * Layer) (i : nat) :
  marks host targets params nl i ->
  exists t, targets !! i = Some t /\ target_matched host t nl = true.
Proof.
  unfold target_matched.
  intros [[_ [(t & Ht & Hm) _]]|[[_ [Hc _]]|(np & Hin & Hdot & (t & Ht & Hm) & _)]].
  - exists t. split; [exact Ht|]. cbv zeta. now rewrite Hm.
  - exists (class_name (node nl.2)). split; [exact Hc|].
    rewrite String.eqb_refl. now rewrite orb_true_r.
  - exists t. split; [exact Ht|]. cbv zeta. apply orb_true_iff. right.
    apply existsb_exists. exists np. split; [exact Hin|].
    now rewrite Hdot, Hm.
Qed.

Lemma unmatched_is_unmarked (host : Host) (targets : list string)
    (module : Module) (params : bool) (i : nat) (t : string) :
  targets !! i = Some t -> matched_somewhere host t module = false ->
  ~ marked host targets module params i.
Proof.
  intros Ht Hnone (nl & Hin & Hm).
  apply marks_matched in Hm as (u & Hu & Hm).
  rewrite Ht in Hu. injection Hu as <-.
  apply not_true_iff_false in Hnone. apply Hnone.
  apply existsb_exists. eauto.
Qed.

(** C1, as it holds: past the three sentinels, if some target index is
    never marked found during the traversal, the call raises the
    target-not-found error, so no mapping is returned, and the targets the
    error carries are those at the indices never marked, each once and in
    the order of the targets: every unmarked index contributes its target,
    no marked index does.  Every target that matches nothing in the tree
    is among them. *)
Theorem match_layers_params_reports_missing (host : Host) (targets : Targets)
    (module : Module) (params : bool) :
  targets_eq_str targets ALL_TARGET = false ->
  targets_eq_str targets ALL_PRUNABLE_TARGET = false ->
  targets_eq_str targets ALL_QUANTIZABLE_TARGET = false ->
  (exists i, (i < length (as_list targets))%nat /\
             ~ marked host (as_list targets) module params i) ->
  exists missed idx,
    match_layers_params host targets module params
    = Raise (ValueError_targets_not_found missed) /\
    StronglySorted lt idx /\
    (forall i, In i idx <->
               (i < length (as_list targets))%nat /\
               ~ marked host (as_list targets) module params i) /\
    Forall2 (fun i t => as_list targets !! i = Some t) idx missed /\
    forall t, In t (as_list targets) ->
              matched_somewhere host t module = false -> In t missed.
Proof.
  intros H1 H2 H3 (i & Hi & Hun).
  rewrite (match_layers_params_walk _ _ _ _ H1 H2 H3). simpl.
  destruct (walk_flags host (as_list targets) params module) as [Hlen Hflags].
  destruct (missed_targets_spec _ _ Hlen) as (idx & Hs & Hin & Hall).
  assert (forall k, In k idx <->
                    (k < length (as_list targets))%nat /\
                    ~ marked host (as_list targets) module params k) as Hin'.
  { intros k. now rewrite Hin, flag_false_iff, Hlen, Hflags. }
  exists (missed_targets (walk host (as_list targets) module params).2
                         (as_list targets)), idx.
  split; [|split; [exact Hs|split; [exact Hin'|split; [exact Hall|]]]].
  - destruct (missed_targets _ _) eqn:E; [|reflexivity].
    apply Forall2_nil_inv_r in Hall. subst idx.
    exfalso. apply (Hin' i). auto.
  - intros t Ht Hnone.
    apply list_elem_of_In, list_elem_of_lookup_1 in Ht as (k & Hk).
    assert (In k idx) as Hk'.
    { apply Hin'. split; [eapply lookup_lt_Some; eauto|].
      eapply unmatched_is_unmarked; eauto. }
    apply list_elem_of_In, list_elem_of_lookup_1 in Hk' as (n & Hn).
    destruct (Forall2_lookup_l _ _ _ _ _ Hall Hn) as (u & Hu & Hku).
    rewrite Hk in Hku. injection Hku as <-.
    now apply list_elem_of_lookup_2, list_elem_of_In in Hu.
Qed.

(** ** Dictionaries built by a loop *)

Lemma dict_set_fresh {V} (k : string) (v : V) (d : dict V) :
  ~ In k (keys d) -> dict_set k v d = d ++ [(k, v)].
Proof.
  induction d as [|[k' v'] d IH]; simpl; intros Hk; [reflexivity|].
  destruct (String.eqb_spec k' k) as [->|_]; [tauto|].
  rewrite IH; tauto.
Qed.

Lemma dict_set_In {V} (k : string) (v : V) (d : dict V) (x : string * V) :
  In x (dict_set k v d) -> In x d \/ x = (k, v).
Proof.
  induction d as [|[k' v'] d IH]; simpl.
  - intros [<-|[]]. now right.
  - destruct (String.eqb_spec k' k) as [->|_]; simpl.
    + intros [<-|H]; auto.
    + intros [<-|H]; auto. destruct (IH H); auto.
Qed.

Lemma dict_of_items_fresh {V} (items d : dict V) :
  NoDup (keys d ++ keys items) ->
  fold_left (fun d kv => dict_set kv.1 kv.2 d) items d = d ++ items.
Proof.
  revert d. induction items as [|[k v] items IH]; intros d Hnd; simpl.
  - now rewrite app_nil_r.
  - rewrite dict_set_fresh.
    + rewrite IH; [now rewrite <- app_assoc|].
      unfold keys in *. rewrite map_app. simpl. now rewrite <- app_assoc.
    + apply NoDup_app in Hnd as (_ & Hd & _). intros Hin.
      apply (Hd k); [now apply list_elem_of_In | simpl; left].
Qed.

Lemma dict_of_items_unique {V} (items : dict V) :
  NoDup (keys items) -> dict_of_items items = items.
Proof. intros Hnd. unfold dict_of_items. now rewrite dict_of_items_fresh. Qed.

Lemma dict_set_keys {V} (k : string) (v : V) (d : dict V) (k' : string) :
  In k' (keys (dict_set k v d)) <-> k' = k \/ In k' (keys d).
Proof.
  induction d as [|[k0 v0] d IH]; simpl.
  - split; [intros [<-|[]]; auto | intros [->|[]]; auto].
  - destruct (String.eqb_spec k0 k) as [->|_]; simpl.
    + split; [intros [<-|H]; auto | intros [->|[<-|H]]; auto].
    + rewrite IH. split; [intros [<-|[->|H]]; auto | intros [->|[<-|H]]; auto].
Qed.

Lemma fold_dict_set_In {V} (items d : dict V) (x : string * V) :
  In x (fold_left (fun d kv => dict_set kv.1 kv.2 d) items d) ->
  In x d \/ In x items.
Proof.
  revert d. induction items as [|[k v] items IH]; intros d; simpl; [auto|].
  intros H. apply IH in H as [H|H]; [|auto].
  apply dict_set_In in H as [H| ->]; auto.
Qed.

Lemma fold_dict_set_keys {V} (items d : dict V) (k : string) :
  In k (keys d) \/ In k (keys items) ->
  In k (keys (fold_left (fun d kv => dict_set kv.1 kv.2 d) items d)).
Proof.
  revert d. induction items as [|[k0 v0] items IH]; intros d; simpl.
  - intros [H|[]]. exact H.
  - intros H. apply IH. rewrite dict_set_keys. simpl. intuition auto.
Qed.

Lemma NoDup_keys_filter {V} (f : string * V -> bool) (d : dict V) :
  NoDup (keys d) -> NoDup (keys (List.filter f d)).
Proof.
  unfold keys. induction d as [|x d IH]; simpl; [auto|].
  intros Hnd. apply NoDup_cons in Hnd as [Hx Hnd].
  destruct (f x); simpl; [|auto].
  apply NoDup_cons. split; [|auto].
  intros Hin. apply Hx. apply list_elem_of_In in Hin.
  apply list_elem_of_In, in_map_iff.
  apply in_map_iff in Hin as (y & E & Hy). apply filter_In in Hy as [Hy _].
  eauto.
Qed.

(** ** The module tree *)

(** Induction on the tree, with the hypothesis for every child. *)
Lemma Module_tree_ind (P : Module -> Prop) :
  (forall m, Forall (fun nc => P nc.2) (_modules m) -> P m) ->
  forall m, P m.
Proof.
  intros step. fix IH 1. intros m. apply step.
  destruct m as [c r ca di ps bs cs]. simpl.
  induction cs as [|[name ch] cs IHcs]; constructor; [apply IH | exact IHcs].
Qed.

Lemma named_modules_from_eq (prefix : string) (addr : list nat) (m : Module) :
  named_modules_from prefix addr m =
  (prefix, mkLayer addr m) :: named_children prefix addr 0 (_modules m).
Proof.
  destruct m as [c r ca di ps bs cs]. simpl. f_equal.
  generalize 0%nat. induction cs as [|[name ch] cs IH]; intros i; simpl.
  - reflexivity.
  - now rewrite IH.
Qed.

(** ** Names of the traversal *)

Lemma append_cons (x : ascii) (a b : string) :
  String x a +:+ b = String x (a +:+ b).
Proof. reflexivity. Qed.

Lemma append_nil_l (a : string) : "" +:+ a = a.
Proof. reflexivity. Qed.

Lemma append_assoc (a b c : string) : (a +:+ b) +:+ c = a +:+ (b +:+ c).
Proof.
  induction a as [|x a IH]; [reflexivity|]. now rewrite !append_cons, IH.
Qed.

Lemma append_nil_r (a : string) : a +:+ "" = a.
Proof.
  induction a as [|x a IH]; [reflexivity|]. now rewrite append_cons, IH.
Qed.

Lemma append_inj_l (a x y : string) : a +:+ x = a +:+ y -> x = y.
Proof.
  induction a as [|c a IH]; [auto|]. rewrite !append_cons. intros [= H]. auto.
Qed.

Lemma sub_prefix_inj (p a b : string) : sub_prefix p a = sub_prefix p b -> a = b.
Proof.
  unfold sub_prefix. intros H. apply append_inj_l in H.
  now apply append_inj_l in H.
Qed.

Lemma sub_prefix_nonempty (prefix name : string) :
  name <> "" -> sub_prefix prefix name <> "".
Proof.
  unfold sub_prefix. destruct prefix; simpl; [|discriminate].
  now destruct name.
Qed.

Lemma sub_prefix_longer (p r : string) : r <> "" -> sub_prefix p r <> p.
Proof.
  intros Hr H. unfold sub_prefix in H.
  rewrite <- (append_nil_r p) in H at 3. apply append_inj_l in H.
  destruct (String.eqb p ""); simpl in H; [contradiction | discriminate].
Qed.

Lemma sub_prefix_twice (p n r : string) :
  n <> "" -> sub_prefix (sub_prefix p n) r = sub_prefix p (n +:+ "." +:+ r).
Proof.
  intros Hn. unfold sub_prefix at 1.
  destruct (String.eqb_spec (sub_prefix p n) "") as [E|_].
  - now apply sub_prefix_nonempty in E.
  - unfold sub_prefix. now rewrite !append_assoc.
Qed.

Lemma append_nonempty (n x : string) : n <> "" -> n +:+ x <> "".
Proof. now destruct n. Qed.

(** Two dot-free segments followed by tails agree only if they are the
    same segment. *)
Lemma segment_inj (n : string) : forall n' x x',
  Str.contains dot n = false -> Str.contains dot n' = false ->
  dot_tail x -> dot_tail x' -> n +:+ x = n' +:+ x' -> n = n'.
Proof.
  induction n as [|a n IH]; intros [|a' n'] x x' Hn Hn' Hx Hx';
    rewrite ?append_cons, ?append_nil_l; [reflexivity | | |].
  - intros ->. destruct Hx as [E|(y & [= -> _])]; [discriminate|].
    simpl in Hn'. discriminate.
  - intros <-. destruct Hx' as [E|(y & [= -> _])]; [discriminate|].
    simpl in Hn. discriminate.
  - simpl in Hn, Hn'. intros [= -> H].
    destruct (Ascii.eqb a' dot); [discriminate|].
    f_equal. exact (IH n' x x' Hn Hn' Hx Hx' H).
Qed.

Lemma proper_names_cons c r ca di ps bs name ch cs :
  proper_names (mkModule c r ca di ps bs ((name, ch) :: cs)) = true <->
  name <> "" /\ Str.contains dot name = false /\ ~ In name (map fst cs) /\
  proper_names ch = true /\ proper_names (mkModule c r ca di ps bs cs) = true.
Proof.
  simpl. rewrite !andb_true_iff, !negb_true_iff.
  destruct (String.eqb_spec name "").
  - intuition congruence.
  - assert (existsb (String.eqb name) (map fst cs) = false <->
            ~ In name (map fst cs)) as ->; [|intuition congruence].
    rewrite <- not_true_iff_false, existsb_exists. split.
    + intros H Hin. apply H. exists name. now rewrite String.eqb_refl.
    + intros H (y & Hy & E). apply String.eqb_eq in E. now subst.
Qed.

(** Below a node every name is the node's prefix extended by the name of
    one of its children and a tail. *)
Lemma named_children_names (m : Module) :
  proper_names m = true ->
  forall prefix addr i nl,
    In nl (named_children prefix addr i (_modules m)) ->
    exists name c x,
      In (name, c) (_modules m) /\ dot_tail x /\
      nl.1 = sub_prefix prefix (name +:+ x).
Proof.
  induction m as [[c r ca di ps bs cs] IH] using Module_tree_ind. simpl in *.
  induction cs as [|[name ch] cs IHcs]; intros Hwf prefix addr i nl;
    simpl; [tauto|].
  apply (proper_names_cons c r ca di ps bs) in Hwf as (Hname & _ & _ & Hch & Hcs).
  apply Forall_cons in IH as [IHch IH]. simpl in IHch.
  rewrite in_app_iff, named_modules_from_eq. simpl.
  intros [[<-|Hin]|Hin].
  - exists name, ch, "". simpl. rewrite append_nil_r.
    split; [auto|]. split; [now left | reflexivity].
  - apply (IHch Hch) in Hin as (n' & c' & x & _ & Hx & ->).
    exists name, ch, ("." +:+ n' +:+ x).
    split; [auto|]. split; [right; eexists; reflexivity|].
    now apply sub_prefix_twice.
  - apply (IHcs IH Hcs) in Hin as (n' & c' & x & Hin & Hx & E).
    exists n', c', x. auto.
Qed.

Lemma named_subtree_names (prefix name : string) (addr : list nat)
    (ch : Module) (nl : string * Layer) :
  name <> "" -> proper_names ch = true ->
  In nl (named_modules_from (sub_prefix prefix name) addr ch) ->
  exists x, dot_tail x /\ nl.1 = sub_prefix prefix (name +:+ x).
Proof.
  intros Hname Hch. rewrite named_modules_from_eq. intros [<-|Hin].
  - exists "". simpl. rewrite append_nil_r. split; [now left | reflexivity].
  - apply (named_children_names _ Hch) in Hin as (n' & c' & x & _ & Hx & ->).
    exists ("." +:+ n' +:+ x). split; [right; eexists; reflexivity|].
    now apply sub_prefix_twice.
Qed.

Lemma keys_app {V} (d d' : dict V) : keys (d ++ d') = keys d ++ keys d'.
Proof. apply map_app. Qed.

(** In a tree with proper names no two nodes of the traversal share a
    name. *)
Lemma named_modules_from_NoDup (m : Module) :
  proper_names m = true ->
  forall prefix addr, NoDup (keys (named_modules_from prefix addr m)).
Proof.
  induction m as [[c r ca di ps bs cs] IH] using Module_tree_ind.
  intros Hwf prefix addr. rewrite named_modules_from_eq. simpl.
  apply NoDup_cons. split.
  - intros Hin. apply list_elem_of_In, in_map_iff in Hin as (nl & E & Hin).
    apply (named_children_names _ Hwf) in Hin as (n & ch & x & Hc & _ & E').
    rewrite E in E'. symmetry in E'. revert E'. apply sub_prefix_longer.
    apply append_nonempty.
    clear -Hwf Hc. simpl in Hc. induction cs as [|[n' c'] cs IHcs]; [easy|].
    apply (proper_names_cons c r ca di ps bs) in Hwf as (Hn & _ & _ & _ & Hcs).
    destruct Hc as [[= -> _]|Hc]; auto.
  - simpl in *. generalize 0%nat.
    induction cs as [|[name ch] cs IHcs]; intros i; simpl; [constructor|].
    pose proof Hwf as Hwf'.
    apply (proper_names_cons c r ca di ps bs) in Hwf'
      as (Hname & Hdot & Hfresh & Hch & Hcs).
    apply Forall_cons in IH as [IHch IH]. simpl in IHch.
    rewrite keys_app. apply NoDup_app. split; [now apply IHch|].
    split; [|now apply IHcs].
    intros k Hk Hk'.
    apply list_elem_of_In, in_map_iff in Hk as (nl & <- & Hnl).
    apply list_elem_of_In, in_map_iff in Hk' as (nl' & E & Hnl').
    apply named_subtree_names in Hnl as (x & Hx & Ex); [|auto|auto].
    apply (named_children_names (mkModule c r ca di ps bs cs) Hcs) in Hnl'
      as (n' & c' & x' & Hin' & Hx' & Ex').
    rewrite Ex, Ex' in E. apply sub_prefix_inj in E.
    assert (Str.contains dot n' = false /\ In n' (map fst cs)) as [Hdot' Hn'].
    { clear -Hcs Hin'. simpl in Hin'.
      induction cs as [|[n0 c0] cs IHcs]; [easy|].
      apply (proper_names_cons c r ca di ps bs) in Hcs as (_ & Hd & _ & _ & Hcs).
      destruct Hin' as [[= -> _]|Hin']; [simpl; auto|].
      destruct (IHcs Hcs Hin'). simpl. auto. }
    apply Hfresh.
    now rewrite <- (segment_inj n' name x' x Hdot' Hdot Hx' Hx E).
Qed.

Lemma named_modules_NoDup (module : Module) :
  proper_names module = true -> NoDup (keys (named_modules (root module))).
Proof. intros Hwf. now apply named_modules_from_NoDup. Qed.

Lemma child_names_nonempty_cons c r ca di ps bs name ch cs :
  child_names_nonempty (mkModule c r ca di ps bs ((name, ch) :: cs)) = true <->
  name <> "" /\ child_names_nonempty ch = true /\
  child_names_nonempty (mkModule c r ca di ps bs cs) = true.
Proof.
  simpl. rewrite !andb_true_iff, negb_true_iff.
  destruct (String.eqb_spec name ""); intuition congruence.
Qed.

(** Below the root every name of the traversal is non-empty. *)
Lemma named_children_nonempty (m : Module) :
  child_names_nonempty m = true ->
  forall prefix addr nl,
    In nl (named_children prefix addr 0 (_modules m)) -> nl.1 <> "".
Proof.
  induction m as [[c r ca di ps bs cs] IH] using Module_tree_ind. simpl in *.
  generalize 0%nat.
  induction cs as [|[name ch] cs IHcs]; intros i Hwf prefix addr nl;
    simpl; [tauto|].
  apply (child_names_nonempty_cons c r ca di ps bs) in Hwf as (Hname & Hch & Hcs).
  apply Forall_cons in IH as [IHch IH]. simpl in IHch.
  rewrite in_app_iff, named_modules_from_eq. simpl.
  intros [[<-|Hin]|Hin].
  - simpl. now apply sub_prefix_nonempty.
  - eapply IHch; eauto.
  - eapply IHcs; eauto.
Qed.

(** ** Role classifiers *)


(** ** Default parameters *)

Lemma contains_dot_append (p k : string) :
  Str.contains dot (p +:+ "." +:+ k) = true.
Proof.
  induction p as [|a p IH]; simpl; [reflexivity|].
  destruct (Ascii.eqb a dot); [reflexivity | exact IH].
Qed.

Lemma nested_name_not_weight (p k : string) :
  p <> "" -> String.eqb (sub_prefix p k) "weight" = false.
Proof.
  intros Hp. unfold sub_prefix.
  destruct (String.eqb_spec p ""); [contradiction|].
  destruct (String.eqb_spec (p +:+ "." +:+ k) "weight") as [E|]; [|reflexivity].
  pose proof (contains_dot_append p k) as H. rewrite E in H. discriminate.
Qed.

Lemma find_all_false {A} (f : A -> bool) (l : list A) :
  (forall x, In x l -> f x = false) -> find f l = None.
Proof.
  induction l as [|x l IH]; simpl; intros H; [reflexivity|].
  rewrite (H x) by auto. auto.
Qed.

Lemma find_app_l {A} (f : A -> bool) (l l' : list A) :
  find f l' = None -> find f (l ++ l') = find f l.
Proof.
  intros H. induction l as [|x l IH]; simpl; [exact H|].
  destruct (f x); auto.
Qed.

Lemma find_own_weight (ps : dict Tensor) :
  snd <$> find (fun np => String.eqb np.1 "weight")
               (map (fun '(k, v) => (sub_prefix "" k, v)) ps)
  = dict_get "weight" ps.
Proof.
  induction ps as [|[k v] ps IH]; simpl; [reflexivity|].
  change (sub_prefix "" k) with k.
  destruct (String.eqb k "weight"); [reflexivity | exact IH].
Qed.

(** With proper child names, the parameter found under ["weight"] is the
    layer's own. *)
Lemma default_param_own (layer : Layer) :
  child_names_nonempty (node layer) = true ->
  default_param layer = dict_get "weight" (_parameters (node layer)).
Proof.
  intros Hwf. unfold default_param, named_parameters, named_modules.
  rewrite named_modules_from_eq. simpl. rewrite find_app_l.
  - apply find_own_weight.
  - apply find_all_false. intros [pn p] Hin.
    apply in_flat_map in Hin as ([prefix l] & Hl & Hin).
    apply in_map_iff in Hin as ([k v] & [= <- <-] & _). simpl.
    apply nested_name_not_weight.
    exact (named_children_nonempty _ Hwf _ _ _ Hl).
Qed.

Lemma get_default_params_fold (layers : dict Layer) : forall acc : dict Tensor,
  NoDup (keys acc ++ keys layers) ->
  (forall nl, In nl layers -> child_names_nonempty (node nl.2) = true) ->
  fold_left (fun params '(name, layer) =>
               match default_param layer with
               | Some param => dict_set name param params
               | None => params
               end) layers acc
  = acc ++ omap own_weight layers.
Proof.
  induction layers as [|[name layer] layers IH]; intros acc Hnd Hwf; simpl.
  - now rewrite app_nil_r.
  - rewrite default_param_own by (apply (Hwf (name, layer)); now left).
    unfold own_weight at 1. simpl.
    assert (~ In name (keys acc)) as Hfresh.
    { apply NoDup_app in Hnd as (_ & Hd & _). intros Hin.
      apply (Hd name); [now apply list_elem_of_In | simpl; left]. }
    destruct (dict_get "weight" (_parameters (node layer))) as [w|].
    + rewrite dict_set_fresh by exact Hfresh.
      rewrite IH; [now rewrite <- app_assoc | | intros; apply Hwf; now right].
      unfold keys in *. rewrite map_app. simpl. now rewrite <- app_assoc.
    + apply IH; [|intros; apply Hwf; now right]. simpl in Hnd.
      apply NoDup_app in Hnd as (Ha & Hd & Hl).
      apply NoDup_cons in Hl as [_ Hl].
      apply NoDup_app. split; [exact Ha|]. split; [|exact Hl].
      intros k Hk Hk'. apply (Hd k Hk). now right.
Qed.

Lemma dict_get_absent {V} (k : string) (d : dict V) :
  ~ In k (keys d) -> dict_get k d = None.
Proof.
  induction d as [|[k' v] d IH]; simpl; intros H; [reflexivity|].
  destruct (String.eqb_spec k' k) as [->|_]; [tauto | apply IH; tauto].
Qed.

Lemma keys_own_weight (layers : dict Layer) (k : string) :
  In k (keys (omap own_weight layers)) -> In k (keys layers).
Proof.
  induction layers as [|[name layer] layers IH]; simpl; [auto|].
  unfold own_weight at 1. simpl.
  destruct (dict_get "weight" (_parameters (node layer))); simpl; tauto.
Qed.

(** C7: for a mapping with distinct keys whose layers have proper child
    names, [get_default_params] keeps, in order, each layer that owns a
    parameter named ["weight"], under the layer's name and holding that
    parameter, and leaves every other layer out; being a total function it
    raises nothing. *)
Theorem get_default_params_own_weight (layers : dict Layer) :
  NoDup (keys layers) ->
  (forall nl, In nl layers -> child_names_nonempty (node nl.2) = true) ->
  get_default_params layers = omap own_weight layers /\
  forall name,
    dict_get name (get_default_params layers) =
    match dict_get name layers with
    | Some layer => dict_get "weight" (_parameters (node layer))
    | None => None
    end.
Proof.
  intros Hnd Hwf.
  assert (get_default_params layers = omap own_weight layers) as E.
  { unfold get_default_params. now rewrite get_default_params_fold. }
  split; [exact E|]. rewrite E. clear E Hwf. intros name.
  induction layers as [|[k layer] layers IH]; simpl; [reflexivity|].
  apply NoDup_cons in Hnd as [Hk Hnd].
  unfold own_weight at 1. simpl.
  destruct (String.eqb_spec k name) as [->|Hne].
  - destruct (dict_get "weight" (_parameters (node layer))) as [w|]; simpl.
    + now rewrite String.eqb_refl.
    + apply dict_get_absent. intros Hin. apply Hk, list_elem_of_In.
      now apply keys_own_weight in Hin.
  - destruct (dict_get "weight" (_parameters (node layer))) as [w|]; simpl.
    + destruct (String.eqb_spec k name); [contradiction | auto].
    + auto.
Qed.

(** ** Parameterized layers *)

Definition named_after_key (d : dict ModelParameterizedLayer) : Prop :=
  forall name pl, In (name, pl) d -> param_name pl = name /\ layer_name pl = name.

Lemma get_layers_params_fold (layers params : dict Entity) :
  forall acc : result (dict ModelParameterizedLayer),
    (forall d, acc = Ok d -> named_after_key d) ->
    forall d,
      fold_left
        (fun acc '(name, param) =>
           parameterized_layers ← acc;
           match dict_get name layers with
           | Some l =>
               let param_layer :=
                 {| layer_name := name; layer := l;
                    param_name := name; param := param |} in
               Ok (dict_set name param_layer parameterized_layers)
           | None => Raise (KeyError name)
           end)
        params acc = Ok d ->
      named_after_key d.
Proof.
  induction params as [|[name p] params IH]; intros acc Hacc d; simpl.
  - apply Hacc.
  - apply IH. intros d'. destruct acc as [d0|e]; simpl; [|discriminate].
    destruct (dict_get name layers) as [l|]; [|discriminate].
    intros [= <-] k pl Hin.
    apply dict_set_In in Hin as [Hin|[= -> ->]]; [|auto].
    now apply (Hacc d0).
Qed.

(** C10: in every entry of the mapping [get_layers_params] returns, the
    [param_name] field is the key, that is the dotted name of the layer,
    the same string as [layer_name]. *)
Theorem get_layers_params_param_name (host : Host) (targets : Targets)
    (module : Module) (parameterized_layers : dict ModelParameterizedLayer) :
  get_layers_params host targets module = Ok parameterized_layers ->
  forall name pl,
    In (name, pl) parameterized_layers ->
    param_name pl = name /\ layer_name pl = name /\
    param_name pl = layer_name pl.
Proof.
  unfold get_layers_params. intros H name pl Hin.
  destruct (get_params host targets module) as [params|e];
    simpl in H; [|discriminate].
  destruct (get_layers host targets module false) as [layers|e];
    simpl in H; [|discriminate].
  apply get_layers_params_fold in H.
  - destruct (H name pl Hin) as [-> ->]. auto.
  - intros d [= <-] k x [].
Qed.

(** ** The closest match *)

Section ClosestMatch.

Variable host : Host.
Variable name_to_match : string.

Local Abbreviation block nm :=
  (host_find_longest_match host nm.1 name_to_match).
Local Abbreviation closest := (closest_so_far host name_to_match).

Lemma closer_match_step seen st c :
  closest seen st ->
  closest (seen ++ [c]) (closer_match host name_to_match st c).
Proof.
  destruct st as [n [best|]]; unfold closest_so_far, closer_match;
    cbn [fst snd].
  - intros (-> & Hpos & i & Hi & Hmax & Hfirst).
    destruct (Nat.ltb_spec (block best) (block c)); cbn [fst snd].
    + split; [reflexivity|]. split; [lia|].
      exists (length seen). split; [|split].
      * now rewrite lookup_app_r, Nat.sub_diag by lia.
      * intros x Hx. apply in_app_iff in Hx as [Hx|[<-|[]]]; [|lia].
        apply Hmax in Hx. lia.
      * intros j x Hj Hx. rewrite lookup_app_l in Hx by exact Hj.
        apply list_elem_of_lookup_2, list_elem_of_In, Hmax in Hx. lia.
    + split; [reflexivity|]. split; [exact Hpos|].
      exists i. split; [|split].
      * rewrite lookup_app_l; [exact Hi|]. eapply lookup_lt_Some; eauto.
      * intros x Hx. apply in_app_iff in Hx as [Hx|[<-|[]]]; auto.
      * intros j x Hj Hx. apply (Hfirst j); [exact Hj|].
        rewrite lookup_app_l in Hx; [exact Hx|].
        apply lookup_lt_Some in Hi. lia.
  - intros [-> Hnone].
    destruct (Nat.ltb_spec 0 (block c)); cbn [fst snd].
    + split; [reflexivity|]. split; [lia|].
      exists (length seen). split; [|split].
      * now rewrite lookup_app_r, Nat.sub_diag by lia.
      * intros x Hx. apply in_app_iff in Hx as [Hx|[<-|[]]]; [|lia].
        apply Hnone in Hx. lia.
      * intros j x Hj Hx. rewrite lookup_app_l in Hx by exact Hj.
        apply list_elem_of_lookup_2, list_elem_of_In, Hnone in Hx. lia.
    + split; [reflexivity|].
      intros x Hx. apply in_app_iff in Hx as [Hx|[<-|[]]]; [auto | lia].
Qed.

Lemma closer_match_fold candidates : forall seen st,
  closest seen st ->
  closest (seen ++ candidates)
                 (fold_left (closer_match host name_to_match) candidates st).
Proof.
  induction candidates as [|c candidates IH]; intros seen st H; simpl.
  - now rewrite app_nil_r.
  - replace (seen ++ c :: candidates) with ((seen ++ [c]) ++ candidates)
      by now rewrite <- app_assoc.
    apply IH. now apply closer_match_step.
Qed.

End ClosestMatch.

(** ** Places in the tree *)

Lemma set_modules_same (m : Module) : set_modules m (_modules m) = m.
Proof. now destruct m. Qed.

Lemma deref_update_at (f : Module -> Module) (addr : list nat) :
  forall m, deref addr (update_at addr f m) = f <$> deref addr m.
Proof.
  induction addr as [|i addr IH]; intros m; simpl; [reflexivity|].
  rewrite list_lookup_alter_eq.
  destruct (_modules m !! i) as [[name c]|]; simpl; [apply IH | reflexivity].
Qed.

Lemma update_at_twice (f g : Module -> Module) (addr : list nat) :
  forall m,
    update_at addr g (update_at addr f m) = update_at addr (fun q => g (f q)) m.
Proof.
  induction addr as [|i addr IH]; intros m; simpl; [reflexivity|].
  unfold set_modules at 1 2. simpl. unfold set_modules. f_equal.
  rewrite list_alter_alter_eq. apply list_alter_ext; [|reflexivity].
  intros [name c] _. simpl. now rewrite IH.
Qed.

Lemma update_at_fixed (f : Module -> Module) (addr : list nat) :
  forall m q, deref addr m = Some q -> f q = q -> update_at addr f m = m.
Proof.
  induction addr as [|i addr IH]; intros m q; simpl.
  - now intros [= ->].
  - destruct (_modules m !! i) as [[name c]|] eqn:E; [|discriminate].
    intros Hq Hf.
    rewrite (list_alter_ext _ id (_modules m) (_modules m) i).
    + rewrite list_alter_id by reflexivity. apply set_modules_same.
    + intros x Hx. rewrite E in Hx. injection Hx as <-. simpl.
      now rewrite (IH c q).
    + reflexivity.
Qed.

Lemma dict_set_restore {V} (k : string) (v old : V) (d : dict V) :
  dict_get k d = Some old -> dict_set k old (dict_set k v d) = d.
Proof.
  induction d as [|[k' v'] d IH]; simpl; [discriminate|].
  destruct (String.eqb k' k) eqn:E; simpl; rewrite E.
  - now intros [= ->].
  - intros H. now rewrite IH.
Qed.

Lemma named_children_located (prefix : string) (addr : list nat)
    (cs : list (string * Module)) :
  Forall (fun nc => forall prefix addr nl,
            In nl (named_modules_from prefix addr nc.2) ->
            exists rel, address nl.2 = addr ++ rel /\
                        deref rel nc.2 = Some (node nl.2)) cs ->
  forall i nl,
    In nl (named_children prefix addr i cs) ->
    exists k name c rel,
      cs !! k = Some (name, c) /\
      address nl.2 = addr ++ (i + k)%nat :: rel /\
      deref rel c = Some (node nl.2).
Proof.
  induction cs as [|[name c] cs IHcs]; intros Hall i nl; simpl; [tauto|].
  apply Forall_cons in Hall as [Hc Hall]. rewrite in_app_iff.
  intros [Hin|Hin].
  - apply Hc in Hin as (rel & Ha & Hd). exists 0%nat, name, c, rel.
    split; [reflexivity|]. split; [|exact Hd].
    rewrite Ha, <- app_assoc, Nat.add_0_r. reflexivity.
  - apply (IHcs Hall) in Hin as (k & n & ch & rel & Hk & Ha & Hd).
    exists (S k), n, ch, rel. split; [exact Hk|]. split; [|exact Hd].
    rewrite Ha. do 2 f_equal. lia.
Qed.

Lemma named_modules_from_located (m : Module) :
  forall prefix addr nl,
    In nl (named_modules_from prefix addr m) ->
    exists rel, address nl.2 = addr ++ rel /\ deref rel m = Some (node nl.2).
Proof.
  induction m as [m IH] using Module_tree_ind. intros prefix addr nl.
  rewrite named_modules_from_eq. intros [<-|Hin].
  - exists []. simpl. now rewrite app_nil_r.
  - apply (named_children_located _ _ _ IH) in Hin
      as (k & name & c & rel & Hk & Ha & Hd).
    exists (k :: rel). split; [exact Ha|]. simpl. now rewrite Hk.
Qed.

Lemma named_modules_located (module : Module) (nl : string * Layer) :
  In nl (named_modules (root module)) -> located module (ELayer nl.2).
Proof.
  intros Hin. apply named_modules_from_located in Hin as (rel & Ha & Hd).
  exists nl.2. simpl in Ha. now rewrite Ha.
Qed.

Lemma layers_located (module : Module) (f : string * Layer -> bool)
    (x : string * Entity) :
  In x (prod_map id ELayer
          <$> dict_of_items (List.filter f (named_modules (root module)))) ->
  located module x.2.
Proof.
  intros Hin. apply list_elem_of_In, list_elem_of_fmap in Hin
    as ([n l] & -> & Hin).
  apply list_elem_of_In, fold_dict_set_In in Hin as [[]|Hin].
  apply filter_In in Hin as [Hin _]. simpl.
  now apply (named_modules_located module (n, l)).
Qed.

Section Located.

Variable host : Host.
Variable module : Module.

Local Abbreviation all_located resolved :=
  (forall x : string * Entity, In x resolved -> located module x.2).

Lemma dict_set_located k e (resolved : dict Entity) :
  located module e -> all_located resolved ->
  all_located (dict_set k e resolved).
Proof.
  intros He Hall x Hx. apply dict_set_In in Hx as [Hx| ->]; auto.
Qed.

Lemma visit_located targets st nl :
  located module (ELayer nl.2) -> all_located st.1 ->
  all_located (visit host targets false st nl).1.
Proof.
  intros Hnl Hst. unfold visit.
  assert (all_located (visit_layer host targets false
                         (host_fix_fsdp_module_name host nl.1) nl.2 st).1)
    as Hl.
  { destruct st as [resolved found]. unfold visit_layer. simpl in Hst.
    destruct (match_targets host _ (TList targets)) as [m i].
    destruct (match_class nl.2 (TList targets)) as [c j].
    destruct (m && negb false); [|destruct c]; simpl;
      try (apply dict_set_located; assumption); assumption. }
  revert Hl.
  generalize (visit_layer host targets false
                (host_fix_fsdp_module_name host nl.1) nl.2 st).
  induction (named_parameters nl.2) as [|[pn p] ps IH]; intros st' Hst';
    simpl; [exact Hst'|].
  apply IH. destruct st' as [resolved found]. unfold visit_param.
  simpl in Hst'.
  destruct (Str.contains dot pn); [exact Hst'|].
  destruct (match_targets host _ (TList targets)) as [[|] i]; simpl;
    try (apply dict_set_located; assumption); assumption.
Qed.

Lemma fold_visit_located targets (l : list (string * Layer)) :
  forall st,
    (forall nl, In nl l -> located module (ELayer nl.2)) ->
    all_located st.1 ->
    all_located (fold_left (visit host targets false) l st).1.
Proof.
  induction l as [|nl l IH]; intros st Hnodes Hst; simpl; [exact Hst|].
  apply IH; [intros; apply Hnodes; now right|].
  apply visit_located; [apply Hnodes; now left | exact Hst].
Qed.

Lemma walk_located targets :
  all_located (walk host targets module false).1.
Proof.
  unfold walk. apply fold_visit_located.
  - apply named_modules_located.
  - intros x [].
Qed.

(** Asked for layers, the resolver returns references into the tree. *)
Lemma match_layers_params_located targets resolved :
  match_layers_params host targets module false = Ok resolved ->
  all_located resolved.
Proof.
  unfold match_layers_params, layers_or_default_params,
    get_terminal_layers, get_prunable_layers, get_quantizable_layers.
  simpl.
  destruct (targets_eq_str targets ALL_TARGET);
    [intros [= <-]; apply layers_located|].
  destruct (targets_eq_str targets ALL_PRUNABLE_TARGET);
    [intros [= <-]; apply layers_located|].
  destruct (targets_eq_str targets ALL_QUANTIZABLE_TARGET).
  - destruct (QATLinear host); simpl; [|discriminate].
    intros [= <-]. apply layers_located.
  - pose proof (walk_located (as_list targets)) as Hw.
    destruct (walk host (as_list targets) module false) as [r found].
    destruct (0 <? length _)%nat; [discriminate|].
    now intros [= <-].
Qed.

Lemma parent_of_located target parent_layer :
  parent_of host target module = Ok parent_layer ->
  located module parent_layer.
Proof.
  unfold parent_of, get_layer, get_layers.
  destruct (negb _).
  - destruct (match_layers_params host _ module false) as [layers|e] eqn:E;
      simpl; [|discriminate].
    destruct layers as [|nl [|? ?]]; simpl; try discriminate.
    intros [= <-]. apply (match_layers_params_located _ _ E). now left.
  - intros [= <-]. exists (root module). auto.
Qed.

End Located.

(** ** [getattr] and [setattr] *)

Lemma dict_del_absent {V} (k : string) (d : dict V) :
  dict_get k d = None -> dict_del k d = d.
Proof.
  unfold dict_del. induction d as [|[k' v] d IH]; simpl; [reflexivity|].
  destruct (String.eqb k' k); simpl; [discriminate|].
  intros H. now rewrite IH.
Qed.

Lemma dict_get_del {V} (k : string) (d : dict V) :
  dict_get k (dict_del k d) = None.
Proof.
  unfold dict_del. induction d as [|[k' v] d IH]; simpl; [reflexivity|].
  destruct (String.eqb k' k) eqn:E; simpl; [exact IH|]. now rewrite E.
Qed.

Lemma dict_get_del_ne {V} (k k' : string) (d : dict V) :
  k <> k' -> dict_get k' (dict_del k d) = dict_get k' d.
Proof.
  intros Hne. unfold dict_del.
  induction d as [|[k0 v] d IH]; simpl; [reflexivity|].
  destruct (String.eqb_spec k0 k) as [->|_]; simpl.
  - destruct (String.eqb_spec k k'); [contradiction | exact IH].
  - now rewrite IH.
Qed.

Lemma object_getattribute_None (m : Module) (name : string) :
  object_getattribute m name = None <->
  dict_get name (class_attrs m) = None /\ dict_get name (__dict__ m) = None.
Proof.
  unfold object_getattribute.
  destruct (dict_get name (class_attrs m)) as [[[|] v]|];
    destruct (dict_get name (__dict__ m)); simpl;
    split; try discriminate; try tauto; intros [? ?]; discriminate.
Qed.

(** [getattr] gives a child only when nothing else bears the name. *)
Lemma getattr_child (l : Layer) (attr : string) (c : Module) :
  getattr (ELayer l) attr = Ok (AModule c) <->
  object_getattribute (node l) attr = None /\
  dict_get attr (_parameters (node l)) = None /\
  dict_get attr (_buffers (node l)) = None /\
  dict_get attr (_modules (node l)) = Some c.
Proof.
  unfold getattr, Module_getattr.
  destruct (object_getattribute (node l) attr);
    destruct (dict_get attr (_parameters (node l)));
    destruct (dict_get attr (_buffers (node l)));
    destruct (dict_get attr (_modules (node l)));
    split; try discriminate; try (intros (? & ? & ? & ?); discriminate).
  - intros [= ->]. auto.
  - intros (_ & _ & _ & [= ->]). reflexivity.
Qed.

(** [getattr] raises nothing but the attribute error for the name. *)
Lemma getattr_raises (l : Layer) (attr : string) (e : Exception) :
  getattr (ELayer l) attr = Raise e -> e = AttributeError attr.
Proof.
  unfold getattr, Module_getattr.
  destruct (object_getattribute (node l) attr);
    destruct (dict_get attr (_parameters (node l)));
    destruct (dict_get attr (_buffers (node l)));
    destruct (dict_get attr (_modules (node l)));
    try discriminate.
  now intros [= <-].
Qed.

(** Assigning over a child that nothing shadows changes that slot only. *)
Lemma assign_module_child (p : Module) (attr : string) (old value : Module) :
  getattr (ELayer (root p)) attr = Ok (AModule old) ->
  assign_module p attr value = set_modules p (dict_set attr value (_modules p)).
Proof.
  intros H. apply getattr_child in H as (Ho & Hp & Hb & _). simpl in *.
  apply object_getattribute_None in Ho as [_ Hd].
  unfold assign_module, set_modules.
  now rewrite !dict_del_absent by assumption.
Qed.

(** ** [set_layer] *)

(** C6, as it holds: when the first [set_layer] succeeds and returns a
    module, that module was the child registered under the last segment of
    the target in the resolved parent, shadowed by nothing; when moreover
    the parent of the target is resolved at the same place afterwards,
    calling [set_layer] again with that module returns the replacement and
    gives back the original tree. *)
Theorem set_layer_round_trip (host : Host) (target : string)
    (layer module old : Module) (module' : Module) :
  set_layer host target layer module = Ok (AModule old, module') ->
  same_parent host target module module' ->
  exists p,
    parent_of host target module = Ok (ELayer p) /\
    deref (address p) module = Some (node p) /\
    getattr (ELayer p) (List.last (Str.split dot target) "")
    = Ok (AModule old) /\
    dict_get (List.last (Str.split dot target) "") (_modules (node p))
    = Some old /\
    set_layer host target old module' = Ok (AModule layer, module).
Proof.
  unfold set_layer. set (attr := List.last (Str.split dot target) "").
  intros H Hsame.
  destruct (parent_of host target module) as [pl|e] eqn:Hp;
    simpl in H; [|discriminate].
  destruct (parent_of_located _ _ _ _ Hp) as (p & -> & Hd).
  destruct (getattr (ELayer p) attr) as [a|e] eqn:Hg;
    simpl in H; [|discriminate].
  simpl in H.
  destruct (dict_get attr (_parameters (node p))) as [w|] eqn:Hw;
    simpl in H; [discriminate|].
  injection H as -> <-.
  pose proof Hg as Hg'.
  apply getattr_child in Hg' as (Ho & _ & Hb & Hold).
  exists p. do 4 (split; [reflexivity || assumption|]).
  assert (forall q value, getattr (ELayer (root q)) attr = Ok (AModule value) ->
            assign_module q attr old
            = set_modules q (dict_set attr old (_modules q))) as Hassign.
  { intros q value Hq. exact (assign_module_child q attr value old Hq). }
  assert (assign_module (node p) attr layer
          = set_modules (node p) (dict_set attr layer (_modules (node p))))
    as Hfirst by exact (assign_module_child (node p) attr old layer Hg).
  assert (getattr (ELayer (root (assign_module (node p) attr layer))) attr
          = Ok (AModule layer)) as Hg2.
  { apply getattr_child. rewrite Hfirst. simpl.
    split; [|split; [exact Hw|split; [exact Hb|apply dict_get_set]]].
    exact Ho. }
  destruct (Hsame p Hp) as (p' & Hp' & Ha).
  destruct (parent_of_located _ _ _ _ Hp') as (q & [= <-] & Hd').
  rewrite Ha, deref_update_at, Hd in Hd'. injection Hd' as Hd'.
  rewrite Hp'. cbv [mbind result_bind].
  assert (getattr (ELayer p') attr = Ok (AModule layer)) as ->.
  { apply getattr_child. apply getattr_child in Hg2. now rewrite <- Hd'. }
  unfold setattr. rewrite <- Hd'. rewrite Hfirst at 1. simpl. rewrite Hw.
  rewrite Ha, update_at_twice. do 2 f_equal.
  apply (update_at_fixed _ _ _ (node p) Hd).
  rewrite (Hassign _ layer Hg2), Hfirst.
  unfold set_modules. simpl. rewrite (dict_set_restore _ _ _ _ Hold).
  now destruct (node p).
Qed.

(** The parent of a target without a dot is the root, whatever the tree. *)
Lemma split_no_dot (s : string) :
  Str.contains dot s = false -> Str.split dot s = [s].
Proof.
  induction s as [|a s IH]; simpl; [reflexivity|].
  destruct (Ascii.eqb a dot); [discriminate|].
  intros H. now rewrite (IH H).
Qed.

Lemma same_parent_top (host : Host) (target : string) (module module' : Module) :
  Str.contains dot target = false -> same_parent host target module module'.
Proof.
  intros Hdot p. unfold parent_of. rewrite (split_no_dot _ Hdot). simpl.
  intros [= <-]. exists (root module'). auto.
Qed.

(** * The claims on concrete trees *)

Ltac distinct_strings :=
  repeat (constructor;
          [rewrite list_elem_of_In; simpl; intuition discriminate|]);
  constructor.

Example match_targets_unanchored_at_the_end :
  match_targets (plain_host None) "model.layers.3" (TList ["layers"; "re:model"])
  = (true, 1) /\
  match_targets (plain_host None) "model.layers.3" (TList ["re:layers"])
  = (false, -1) /\
  match_targets (plain_host None) "model" (TStr "model") = (true, 0).
Proof. repeat split. Qed.

Example match_class_ignores_the_prefix :
  match_class (root (linear 1)) (TStr "re:Linear") = (false, -1) /\
  match_targets (plain_host None) "Linear" (TStr "re:Linear") = (true, 0) /\
  match_class (root (leaf "re:Linear" [] [])) (TStr "re:Linear") = (true, 0).
Proof. repeat split. Qed.

(** A target that only a later matcher would reach is reported missing:
    the name of [block.fc] is taken by the pattern, so the class target is
    never marked. *)
Example shadowed_target_is_reported :
  match_layers_params (plain_host None) (TList ["re:block"; "Linear"])
                      block_model false
  = Raise (ValueError_targets_not_found ["Linear"]).
Proof. reflexivity. Qed.

Example best_match_shares_the_layer_index :
  get_matching_layer (plain_host None) "Proj"
                     "model.layers.3.self_attn.k_proj" decoder
  = Ok (Some ("model.layers.3.self_attn.q_proj",
              ELayer (mkLayer [0; 0; 0; 0; 0]%nat (projection "Proj" 1)))).
Proof. reflexivity. Qed.

Example projection_drops_the_layer_without_weight :
  get_default_params weight_and_bias = [("a", tensor 1)].
Proof. reflexivity. Qed.

(** The tree after [block.fc] has been replaced by [lowercase_block]. *)
Example set_layer_then_parent_is_ambiguous :
  get_layer (plain_host None) "block.fc" block_model
  = Ok ("block.fc", ELayer (mkLayer [0; 0]%nat (linear 1))) /\
  set_layer (plain_host None) "block.fc" lowercase_block block_model
  = Ok (AModule (linear 1),
        nn_module "Model" [] []
          [("block", nn_module "Block" [] [] [("fc", lowercase_block)])]) /\
  set_layer (plain_host None) "block.fc" (linear 1)
    (nn_module "Model" [] []
       [("block", nn_module "Block" [] [] [("fc", lowercase_block)])])
  = Raise (ValueError_expected_one "block" 2).
Proof. repeat split. Qed.

(** C6 as stated fails: [block.fc] resolves to exactly one layer and the
    first call succeeds, but the replacement's class is named [block], so
    the parent target [block] then finds two layers and the second call
    raises instead of restoring the tree. *)
Lemma set_layer_round_trip_counterexample :
  ~ (forall host target layer module old module',
        (exists nl, get_layer host target module = Ok nl) ->
        set_layer host target layer module = Ok (AModule old, module') ->
        set_layer host target old module' = Ok (AModule layer, module)).
Proof.
  intros H.
  specialize (H (plain_host None) "block.fc" lowercase_block block_model
                (linear 1)
                (nn_module "Model" [] []
                   [("block",
                     nn_module "Block" [] [] [("fc", lowercase_block)])])).
  assert (set_layer (plain_host None) "block.fc" (linear 1)
            (nn_module "Model" [] []
               [("block", nn_module "Block" [] [] [("fc", lowercase_block)])])
          = Ok (AModule lowercase_block, block_model)) as E.
  { apply H; [eexists|]; reflexivity. }
  vm_compute in E. discriminate.
Qed.

Lemma set_layer_round_trip_witness :
  set_layer (plain_host None) "block.fc" (linear 7) block_model
  = Ok (AModule (linear 1),
        nn_module "Model" [] []
          [("block", nn_module "Block" [] [] [("fc", linear 7)])]) /\
  same_parent (plain_host None) "block.fc" block_model
    (nn_module "Model" [] []
       [("block", nn_module "Block" [] [] [("fc", linear 7)])]) /\
  set_layer (plain_host None) "block.fc" (linear 1)
    (nn_module "Model" [] []
       [("block", nn_module "Block" [] [] [("fc", linear 7)])])
  = Ok (AModule (linear 7), block_model).
Proof.
  assert (same_parent (plain_host None) "block.fc" block_model
            (nn_module "Model" [] []
               [("block", nn_module "Block" [] [] [("fc", linear 7)])]))
    as Hsame.
  { intros p Hp. vm_compute in Hp. injection Hp as <-.
    eexists. split; [vm_compute; reflexivity | reflexivity]. }
  split; [reflexivity|]. split; [exact Hsame|].
  destruct (set_layer_round_trip (plain_host None) "block.fc" (linear 7)
              block_model (linear 1) _ eq_refl Hsame)
    as (p & _ & _ & _ & _ & E).
  exact E.
Defined.

(** C1 as stated fails: the class target [Linear] matches the dense layer
    of the tree, but the name of that layer is taken by the pattern before
    it, so the index of [Linear] is never marked and the error lists a
    matched target. *)
Lemma match_layers_params_reports_missing_counterexample :
  ~ (forall host targets module params missed,
        targets_eq_str targets ALL_TARGET = false ->
        targets_eq_str targets ALL_PRUNABLE_TARGET = false ->
        targets_eq_str targets ALL_QUANTIZABLE_TARGET = false ->
        match_layers_params host targets module params
        = Raise (ValueError_targets_not_found missed) ->
        forall t, In t (as_list targets) ->
                  (In t missed <-> matched_somewhere host t module = false)).
Proof.
  intros H.
  assert (matched_somewhere (plain_host None) "Linear" block_model = false)
    as E.
  { apply (H (plain_host None) (TList ["re:block"; "Linear"]) block_model
             false ["Linear"]); try reflexivity; simpl; auto. }
  vm_compute in E. discriminate.
Qed.

Lemma match_layers_params_reports_missing_witness :
  (exists i, (i < 2)%nat /\
             ~ marked (plain_host None) ["block.fc"; "zzz"] block_model false i) /\
  exists missed idx,
    match_layers_params (plain_host None) (TList ["block.fc"; "zzz"])
                        block_model false
    = Raise (ValueError_targets_not_found missed) /\
    StronglySorted lt idx /\
    (forall i, In i idx <->
               (i < 2)%nat /\
               ~ marked (plain_host None) ["block.fc"; "zzz"]
                        block_model false i) /\
    Forall2 (fun i t => ["block.fc"; "zzz"] !! i = Some t) idx missed /\
    forall t, In t ["block.fc"; "zzz"] ->
              matched_somewhere (plain_host None) t block_model = false ->
              In t missed.
Proof.
  assert (exists i, (i < 2)%nat /\
            ~ marked (plain_host None) ["block.fc"; "zzz"] block_model false i)
    as Hun.
  { exists 1%nat. split; [lia|]. intros Hm.
    apply (proj2 (walk_flags (plain_host None) ["block.fc"; "zzz"] false
                    block_model)) in Hm.
    vm_compute in Hm. discriminate. }
  split; [exact Hun|].
  apply (match_layers_params_reports_missing (plain_host None)
           (TList ["block.fc"; "zzz"]) block_model false);
    [reflexivity | reflexivity | reflexivity | exact Hun].
Defined.


Lemma get_default_params_own_weight_witness :
  NoDup (keys weight_and_bias) /\
  get_default_params weight_and_bias = [("a", tensor 1)] /\
  dict_get "b" (get_default_params weight_and_bias) = None.
Proof.
  assert (NoDup (keys weight_and_bias)) as Hnd.
  { unfold keys, weight_and_bias. simpl. distinct_strings. }
  assert (forall nl, In nl weight_and_bias ->
                     child_names_nonempty (node nl.2) = true) as Hwf.
  { intros nl [<-|[<-|[]]]; reflexivity. }
  split; [exact Hnd|].
  destruct (get_default_params_own_weight weight_and_bias Hnd Hwf) as [E Hget].
  split; [exact E | exact (Hget "b")].
Defined.


Lemma get_layers_params_param_name_witness :
  get_layers_params (plain_host None) (TList ["block.fc.weight"]) block_model
  = Ok [("block.fc",
         {| layer_name := "block.fc";
            layer := ELayer (mkLayer [0; 0]%nat (linear 1));
            param_name := "block.fc";
            param := EParam (tensor 1) |})] /\
  forall name pl,
    In (name, pl)
       [("block.fc",
         {| layer_name := "block.fc";
            layer := ELayer (mkLayer [0; 0]%nat (linear 1));
            param_name := "block.fc";
            param := EParam (tensor 1) |})] ->
    param_name pl = name /\ layer_name pl = name /\
    param_name pl = layer_name pl.
Proof.
  split; [reflexivity|].
  exact (get_layers_params_param_name (plain_host None)
           (TList ["block.fc.weight"]) block_model _ eq_refl).
Defined.

(** * Further properties of the module *)

(** ** Terminal and prunable layers *)

Lemma named_modules_from_cons (prefix : string) (addr : list nat) (m : Module) :
  exists rest,
    named_modules_from prefix addr m = (prefix, mkLayer addr m) :: rest.
Proof. rewrite named_modules_from_eq. eauto. Qed.

Lemma has_descendants_iff (l : Layer) :
  (1 <? length (named_modules l))%nat = negb (is_leaf l).
Proof.
  unfold named_modules, is_leaf. rewrite named_modules_from_eq.
  destruct (_modules (node l)) as [|[name c] cs]; simpl; [reflexivity|].
  destruct (named_modules_from_cons (sub_prefix "" name) (address l ++ [0%nat]) c)
    as (rest & ->).
  reflexivity.
Qed.

Lemma get_terminal_layers_filter (module : Module) :
  get_terminal_layers module =
  dict_of_items (List.filter (fun nl => is_leaf nl.2)
                             (named_modules (root module))).
Proof.
  unfold get_terminal_layers. f_equal. apply filter_ext.
  intros nl. now rewrite has_descendants_iff, negb_involutive.
Qed.

Lemma traversal_has_leaf (m : Module) :
  forall prefix addr,
    exists nl, In nl (named_modules_from prefix addr m) /\ is_leaf nl.2 = true.
Proof.
  induction m as [[c r ca di ps bs cs] IH] using Module_tree_ind. intros prefix addr.
  rewrite named_modules_from_eq. simpl in *.
  destruct cs as [|[name ch] cs].
  - eexists. split; [left; reflexivity | reflexivity].
  - apply Forall_cons in IH as [IHch _]. simpl in IHch.
    destruct (IHch (sub_prefix prefix name) (addr ++ [0%nat]))
      as (nl & Hin & Hleaf).
    exists nl. split; [|exact Hleaf]. right. simpl.
    apply in_app_iff. now left.
Qed.

(** X1: the terminal layers are the nodes of the traversal without
    children: nothing else is returned, every such node's name is a key,
    in a tree with proper attribute names the result is exactly these
    nodes in traversal order, and it is never empty. *)
Theorem get_terminal_layers_leaves (module : Module) :
  (forall nl, In nl (get_terminal_layers module) ->
              In nl (named_modules (root module)) /\ is_leaf nl.2 = true) /\
  (forall nl, In nl (named_modules (root module)) -> is_leaf nl.2 = true ->
              In nl.1 (keys (get_terminal_layers module))) /\
  (proper_names module = true ->
   get_terminal_layers module
   = List.filter (fun nl => is_leaf nl.2) (named_modules (root module))) /\
  get_terminal_layers module <> [].
Proof.
  rewrite get_terminal_layers_filter.
  assert (forall nl, In nl (named_modules (root module)) -> is_leaf nl.2 = true ->
            In nl.1 (keys (dict_of_items
                             (List.filter (fun nl => is_leaf nl.2)
                                          (named_modules (root module))))))
    as Hkeys.
  { intros nl Hin Hleaf. apply fold_dict_set_keys. right.
    apply in_map, filter_In. auto. }
  split; [|split; [exact Hkeys|split]].
  - intros nl Hin. apply fold_dict_set_In in Hin as [[]|Hin].
    now apply filter_In in Hin.
  - intros Hwf. apply dict_of_items_unique, NoDup_keys_filter.
    now apply named_modules_NoDup.
  - destruct (traversal_has_leaf module "" []) as (nl & Hin & Hleaf).
    specialize (Hkeys nl Hin Hleaf). intros E. rewrite E in Hkeys.
    destruct Hkeys.
Qed.

Lemma quantizable_is_prunable (host : Host) (l : Layer) :
  is_quantizable l = true -> is_prunable host l = true.
Proof.
  unfold is_quantizable, is_prunable. intros H.
  apply orb_true_iff in H as [->| ->]; simpl; [reflexivity|].
  now rewrite orb_true_r.
Qed.

(** X2: every quantizable layer is prunable, whatever optional classes the
    environment has; without any of them the two predicates coincide; so
    each layer [get_quantizable_layers] returns has its name among the
    prunable layers, and in a tree with proper names is one of them. *)
Theorem prunable_contains_quantizable (host : Host) (module : Module) :
  (forall l, is_quantizable l = true -> is_prunable host l = true) /\
  (QATLinear host = None -> QATConv2d host = None ->
   QATConv3d host = None -> TransformerConv1D host = None ->
   forall l, is_prunable host l = is_quantizable l) /\
  (forall quantizable nl,
      get_quantizable_layers host module = Ok quantizable ->
      In nl quantizable ->
      In nl.1 (keys (get_prunable_layers host module)) /\
      (proper_names module = true ->
       In nl (get_prunable_layers host module))).
Proof.
  split; [apply quantizable_is_prunable|]. split.
  - intros H1 H2 H3 H4 l. unfold is_prunable. rewrite H1, H2, H3, H4. simpl.
    now rewrite !orb_false_r.
  - intros q nl Hq Hin. unfold get_quantizable_layers in Hq.
    destruct (QATLinear host); [|discriminate]. injection Hq as <-.
    apply fold_dict_set_In in Hin as [[]|Hin].
    apply filter_In in Hin as [Hin Hqt].
    apply (quantizable_is_prunable host) in Hqt.
    assert (In nl (List.filter (fun nl => is_prunable host nl.2)
                               (named_modules (root module)))) as Hp
      by (apply filter_In; auto).
    unfold get_prunable_layers. split.
    + apply fold_dict_set_keys. right. now apply in_map.
    + intros Hwf. rewrite dict_of_items_unique; [exact Hp|].
      apply NoDup_keys_filter. now apply named_modules_NoDup.
Qed.

(** ** The keys the walk records *)

(** A loop whose rounds only ever add keys: after the loop a key is
    present iff it was present before or some round added it. *)
Lemma fold_keys {X} (step : walk_state -> X -> walk_state)
    (P : X -> string -> Prop) :
  (forall st x k, In k (keys (step st x).1) <-> In k (keys st.1) \/ P x k) ->
  forall xs st k,
    In k (keys (fold_left step xs st).1) <->
    In k (keys st.1) \/ exists x, In x xs /\ P x k.
Proof.
  intros Hstep xs. induction xs as [|x xs IH]; intros st k; simpl.
  - split; [tauto|]. intros [H|(x & [] & _)]. exact H.
  - rewrite IH, Hstep. split.
    + intros [[H|H]|(y & Hy & H)]; eauto 6.
    + intros [H|(y & [<-|Hy] & H)]; eauto 6.
Qed.

Section WalkKeys.

Variable host : Host.
Variable targets : list string.
Variable params : bool.

Lemma visit_layer_keys name layer st k :
  In k (keys (visit_layer host targets params name layer st).1) <->
  In k (keys st.1) \/
  (k = name /\
   ((params = false /\ exists i, first_match host name targets i) \/
    ((params = true \/ no_name_match host name targets) /\
     exists i, first_class_match layer targets i))).
Proof.
  destruct st as [resolved found].
  destruct (visit_layer_cases host targets params name layer resolved found)
    as [(n & Hp & Hn & ->)|[(n & Helse & Hn & ->)|(Helse & Hnone & ->)]];
    simpl; rewrite ?dict_set_keys.
  - split; [intros [->|H]; eauto 8 | intros [H|[-> _]]; auto].
  - split; [intros [->|H]; eauto 8 | intros [H|[-> _]]; auto].
  - split; [auto|]. intros [H|[_ [[Hp (i & Hi)]|[_ (i & Hi)]]]]; auto.
    + destruct Helse as [Hp'|Hnm]; [congruence|].
      now apply (no_name_match_first _ _ _ i) in Hnm.
    + now apply (no_class_match_first _ _ i) in Hnone.
Qed.

Lemma visit_param_keys name layer st np k :
  In k (keys (visit_param host targets params name layer st np).1) <->
  In k (keys st.1) \/
  (k = name /\ Str.contains dot np.1 = false /\
   exists i, first_match host (name +:+ "." +:+ np.1) targets i).
Proof.
  destruct st as [resolved found], np as [pn p]. unfold visit_param. simpl.
  destruct (Str.contains dot pn).
  { split; [auto|]. intros [H|(_ & H & _)]; [exact H | discriminate]. }
  pose proof (match_targets_cases host targets (name +:+ "." +:+ pn)) as Hm.
  destruct (match_targets host (name +:+ "." +:+ pn) (TList targets))
    as [[|] r]; simpl.
  - destruct Hm as (n & -> & Hn). rewrite dict_set_keys.
    split; [intros [->|H]; eauto 8 | intros [H|[-> _]]; auto].
  - split; [auto|]. intros [H|(_ & _ & i & Hi)]; [exact H|].
    now apply (no_name_match_first _ _ _ i) in Hm.
Qed.

Lemma visit_keys st nl k :
  In k (keys (visit host targets params st nl).1) <->
  In k (keys st.1) \/
  (k = host_fix_fsdp_module_name host nl.1 /\
   exists i, marks host targets params nl i).
Proof.
  unfold visit.
  rewrite (fold_keys
             (visit_param host targets params
                (host_fix_fsdp_module_name host nl.1) nl.2)
             (fun np k =>
                k = host_fix_fsdp_module_name host nl.1 /\
                Str.contains dot np.1 = false /\
                exists i, first_match host
                            (host_fix_fsdp_module_name host nl.1
                             +:+ "." +:+ np.1) targets i)
             (fun st np k => visit_param_keys _ _ st np k)).
  rewrite visit_layer_keys. unfold marks. split.
  - intros [[H|[-> [[Hp (i & Hi)]|[He (i & Hi)]]]]|(np & Hin & -> & Hd & i & Hi)];
      eauto 12.
  - intros [H|[-> (i & [[Hp Hi]|[[He Hi]|(np & Hin & Hd & Hi)]])]];
      eauto 12.
Qed.

(** The keys at the end of the walk: the normalized names of the nodes at
    which some target index was marked. *)
Lemma walk_keys module k :
  In k (keys (walk host targets module params).1) <->
  exists nl, In nl (named_modules (root module)) /\
             k = host_fix_fsdp_module_name host nl.1 /\
             exists i, marks host targets params nl i.
Proof.
  unfold walk.
  rewrite (fold_keys (visit host targets params)
             (fun nl k => k = host_fix_fsdp_module_name host nl.1 /\
                          exists i, marks host targets params nl i)
             visit_keys).
  simpl. split; [intros [[]|H]; exact H | auto].
Qed.

End WalkKeys.

Lemma all_marked_iff_none_missed (host : Host) (targets : list string)
    (module : Module) (params : bool) :
  missed_targets (walk host targets module params).2 targets = [] <->
  forall i, (i < length targets)%nat -> marked host targets module params i.
Proof.
  destruct (walk_flags host targets params module) as [Hlen Hflags].
  rewrite (missed_targets_nil _ _ Hlen). split.
  - intros H i Hi. apply Hflags.
    rewrite <- Hlen in Hi. apply lookup_lt_is_Some_2 in Hi as [[|] Hb];
      [exact Hb | now apply H in Hb].
  - intros H i Hi. apply flag_false_iff in Hi as [Hlt Hne].
    apply Hne, Hflags, H. now rewrite <- Hlen.
Qed.

(** X3: past the sentinels, a mapping is returned exactly when every
    target index was marked found during the walk, and it is then the
    mapping the walk built: nothing partial is ever returned. *)
Theorem match_layers_params_all_or_nothing (host : Host) (targets : Targets)
    (module : Module) (params : bool) :
  targets_eq_str targets ALL_TARGET = false ->
  targets_eq_str targets ALL_PRUNABLE_TARGET = false ->
  targets_eq_str targets ALL_QUANTIZABLE_TARGET = false ->
  ((exists resolved,
       match_layers_params host targets module params = Ok resolved) <->
   forall i, (i < length (as_list targets))%nat ->
             marked host (as_list targets) module params i) /\
  forall resolved,
    match_layers_params host targets module params = Ok resolved ->
    resolved = (walk host (as_list targets) module params).1.
Proof.
  intros H1 H2 H3.
  rewrite (match_layers_params_walk _ _ _ _ H1 H2 H3). simpl.
  rewrite <- all_marked_iff_none_missed.
  destruct (missed_targets _ _) as [|t missed]; split.
  - split; [reflexivity | eauto].
  - now intros r [= <-].
  - split; [intros (r & E); discriminate | discriminate].
  - discriminate.
Qed.

(** X4: past the sentinels, the keys of the returned mapping are exactly
    the normalized names of the nodes at which the walk marked some
    target: by their name (layers only), by their class, or by one of
    their own parameters. *)
Theorem match_layers_params_keys (host : Host) (targets : Targets)
    (module : Module) (params : bool) (resolved : dict Entity) :
  targets_eq_str targets ALL_TARGET = false ->
  targets_eq_str targets ALL_PRUNABLE_TARGET = false ->
  targets_eq_str targets ALL_QUANTIZABLE_TARGET = false ->
  match_layers_params host targets module params = Ok resolved ->
  forall k,
    In k (keys resolved) <->
    exists nl, In nl (named_modules (root module)) /\
               k = host_fix_fsdp_module_name host nl.1 /\
               exists i, marks host (as_list targets) params nl i.
Proof.
  intros H1 H2 H3 H k.
  rewrite (match_layers_params_walk _ _ _ _ H1 H2 H3) in H. simpl in H.
  destruct (missed_targets _ _); [|discriminate]. injection H as <-.
  apply walk_keys.
Qed.

(** ** Sentinels inside a list *)

Section SingleLiteral.

Variable host : Host.
Variable s : string.
Hypothesis Hlit : Str.starts_with "re:" s = false.

Lemma literal_first_match (name : string) (k : nat) :
  first_match host name [s] k -> name = s.
Proof.
  intros [(t & Ht & Hm) _].
  apply list_elem_of_lookup_2, list_elem_of_In in Ht as [<-|[]].
  unfold target_matches in Hm. rewrite Hlit in Hm.
  now apply String.eqb_eq.
Qed.

Lemma first_match_literal (name : string) :
  name = s -> first_match host name [s] 0.
Proof.
  intros ->. split.
  - exists s. split; [reflexivity|].
    unfold target_matches. rewrite Hlit. apply String.eqb_refl.
  - intros j t Hj. lia.
Qed.

Lemma marks_single_literal (params : bool) (nl : string * Layer) (i : nat) :
  marks host [s] params nl i -> literally_resolves host s params nl.
Proof.
  intros [[Hp H]|[[_ [H _]]|(np & Hin & Hdot & H)]].
  - left. split; [exact Hp|]. eapply literal_first_match; eauto.
  - right. left.
    apply list_elem_of_lookup_2, list_elem_of_In in H as [<-|[]]. reflexivity.
  - right. right. exists np. split; [exact Hin|]. split; [exact Hdot|].
    eapply literal_first_match; eauto.
Qed.

Lemma literal_marks (params : bool) (nl : string * Layer) :
  literally_resolves host s params nl -> marks host [s] params nl 0.
Proof.
  assert (first_class_match nl.2 [s] 0 <-> class_name (node nl.2) = s) as Hc.
  { unfold first_class_match. simpl. split.
    - now intros [[= <-] _].
    - intros ->. split; [reflexivity|]. intros j Hj. lia. }
  intros [[Hp Hn]|[Hcls|(np & Hin & Hdot & Hn)]].
  - left. split; [exact Hp|]. now apply first_match_literal.
  - destruct params eqn:Hp.
    + right. left. split; [now left | now apply Hc].
    + destruct (String.eqb_spec (host_fix_fsdp_module_name host nl.1) s)
        as [E|E].
      * left. split; [reflexivity|]. now apply first_match_literal.
      * right. left. split; [|now apply Hc].
        right. intros t [<-|[]]. unfold target_matches. rewrite Hlit.
        now apply String.eqb_neq.
  - right. right. exists np. split; [exact Hin|]. split; [exact Hdot|].
    now apply first_match_literal.
Qed.

End SingleLiteral.

(** C9, as it holds: only the bare sentinel string short-circuits.  A
    one-element list holding a sentinel is resolved by the walk like any
    literal target: it yields a mapping exactly when some node resolves the
    string (by its name when layers are asked for, by the name of its
    class, or by the compound name of a parameter it owns) and the
    unresolved-target error otherwise; the mapping is the walk's, keyed by
    the names of the nodes that resolve the string. *)
Theorem sentinel_in_list_is_literal (host : Host) (s : string)
    (module : Module) (params : bool) :
  In s sentinels ->
  match_layers_params host (TStr ALL_TARGET) module params
  = Ok (layers_or_default_params params (get_terminal_layers module)) /\
  ((exists resolved,
       match_layers_params host (TList [s]) module params = Ok resolved) <->
   exists nl, In nl (named_modules (root module)) /\
              literally_resolves host s params nl) /\
  ((forall nl, In nl (named_modules (root module)) ->
               ~ literally_resolves host s params nl) ->
   match_layers_params host (TList [s]) module params
   = Raise (ValueError_targets_not_found [s])) /\
  (forall resolved,
      match_layers_params host (TList [s]) module params = Ok resolved ->
      resolved = (walk host [s] module params).1 /\
      forall k,
        In k (keys resolved) <->
        exists nl, In nl (named_modules (root module)) /\
                   k = host_fix_fsdp_module_name host nl.1 /\
                   literally_resolves host s params nl).
Proof.
  intros Hs.
  assert (Str.starts_with "re:" s = false) as Hlit.
  { destruct Hs as [<-|[<-|[<-|[]]]]; reflexivity. }
  split; [reflexivity|].
  assert (marked host [s] module params 0 <->
          exists nl, In nl (named_modules (root module)) /\
                     literally_resolves host s params nl) as Hm0.
  { unfold marked. split; intros (nl & Hin & H); exists nl;
      (split; [exact Hin|]).
    - now apply (marks_single_literal host s Hlit params nl 0).
    - now apply literal_marks. }
  assert (forall k,
            In k (keys (walk host [s] module params).1) <->
            exists nl, In nl (named_modules (root module)) /\
                       k = host_fix_fsdp_module_name host nl.1 /\
                       literally_resolves host s params nl) as Hkeys.
  { intros k. rewrite walk_keys. split.
    - intros (nl & Hin & -> & i & Hi). exists nl.
      split; [exact Hin|]. split; [reflexivity|].
      now apply (marks_single_literal host s Hlit params nl i).
    - intros (nl & Hin & -> & Hr). exists nl.
      split; [exact Hin|]. split; [reflexivity|].
      exists 0%nat. now apply literal_marks. }
  rewrite (match_layers_params_walk host (TList [s]) module params)
    by reflexivity.
  simpl.
  destruct (walk_flags host [s] params module) as [Hlen Hflags].
  destruct (walk host [s] module params) as [resolved found]. simpl in *.
  destruct found as [|b [|? ?]]; try discriminate.
  specialize (Hflags 0%nat). simpl in Hflags.
  rewrite missed_targets_cons. destruct b; simpl.
  - assert (marked host [s] module params 0) as Hm by now apply Hflags.
    apply Hm0 in Hm. split; [|split].
    + split; [intros _; exact Hm | eauto].
    + intros Hnone. destruct Hm as (nl & Hin & Hr). now apply Hnone in Hr.
    + intros r [= <-]. split; [reflexivity | exact Hkeys].
  - split; [|split].
    + split; [intros (r & E); discriminate|].
      intros Hr. apply Hm0, Hflags in Hr. discriminate.
    + reflexivity.
    + discriminate.
Qed.

Example sentinel_as_a_name :
  match_layers_params (plain_host None) (TList [ALL_TARGET]) sentinel_model
                      false
  = Ok [("__ALL__", ELayer (mkLayer [0%nat] (leaf "Leaf" [] [])))] /\
  match_layers_params (plain_host None) (TList [ALL_TARGET]) sentinel_model
                      true
  = Raise (ValueError_targets_not_found [ALL_TARGET]).
Proof. split; reflexivity. Qed.

(** C9 as stated fails when parameters are asked for: the node registered
    under [__ALL__] literally matches the string by its name, but with
    [params] a name match on a layer resolves nothing, and the call
    raises. *)
Lemma sentinel_in_list_is_literal_counterexample :
  ~ (forall host s module params,
        In s sentinels ->
        (exists nl, In nl (named_modules (root module)) /\
                    literally_matches host s nl) ->
        exists resolved,
          match_layers_params host (TList [s]) module params = Ok resolved).
Proof.
  intros H.
  destruct (H (plain_host None) ALL_TARGET sentinel_model true) as (r & E).
  - now left.
  - eexists. split; [right; left; reflexivity|]. left. reflexivity.
  - vm_compute in E. discriminate.
Qed.

Lemma sentinel_in_list_is_literal_witness :
  In ALL_TARGET sentinels /\
  match_layers_params (plain_host None) (TStr ALL_TARGET) sentinel_model false
  = Ok [("__ALL__", ELayer (mkLayer [0%nat] (leaf "Leaf" [] [])))] /\
  (exists resolved,
      match_layers_params (plain_host None) (TList [ALL_TARGET])
                          sentinel_model false = Ok resolved /\
      forall k, In k (keys resolved) -> k = "__ALL__") /\
  match_layers_params (plain_host None) (TList [ALL_TARGET]) block_model false
  = Raise (ValueError_targets_not_found [ALL_TARGET]).
Proof.
  assert (In ALL_TARGET sentinels) as Hs by now left.
  split; [exact Hs|].
  destruct (sentinel_in_list_is_literal (plain_host None) ALL_TARGET
              sentinel_model false Hs) as (Hbare & Hiff & _ & Hkeys).
  destruct (sentinel_in_list_is_literal (plain_host None) ALL_TARGET
              block_model false Hs) as (_ & _ & Hraise & _).
  split; [exact Hbare|]. split.
  - destruct (proj2 Hiff) as (resolved & E).
    { eexists. split; [right; left; reflexivity|]. left. split; reflexivity. }
    exists resolved. split; [exact E|].
    intros k Hk. apply (Hkeys resolved E) in Hk as (nl & Hin & -> & Hr).
    destruct Hin as [<-|[<-|[]]]; [|reflexivity].
    destruct Hr as [[_ Hn]|[Hc|(np & [] & _)]]; discriminate.
  - apply Hraise.
    intros nl [<-|[<-|[<-|[]]]] [[_ H]|[H|(np & Hin & _ & H)]];
      try discriminate H;
      simpl in Hin; intuition (subst; discriminate).
Defined.

(** ** The closest match, or none *)




(** ** Targets that cannot be found *)

Lemma unmarked_target_is_reported (host : Host) (targets : Targets)
    (module : Module) (params : bool) (j : nat) (t : string) :
  targets_eq_str targets ALL_TARGET = false ->
  targets_eq_str targets ALL_PRUNABLE_TARGET = false ->
  targets_eq_str targets ALL_QUANTIZABLE_TARGET = false ->
  as_list targets !! j = Some t ->
  ~ marked host (as_list targets) module params j ->
  exists missed,
    match_layers_params host targets module params
    = Raise (ValueError_targets_not_found missed) /\
    In t missed.
Proof.
  intros H1 H2 H3 Ht Hun.
  rewrite (match_layers_params_walk _ _ _ _ H1 H2 H3). simpl.
  destruct (walk_flags host (as_list targets) params module) as [Hlen Hflags].
  destruct (missed_targets_spec _ _ Hlen) as (idx & _ & Hin & Hall).
  assert (In j idx) as Hj.
  { apply Hin, flag_false_iff. rewrite Hlen, Hflags.
    split; [eapply lookup_lt_Some; eauto | exact Hun]. }
  apply list_elem_of_In, list_elem_of_lookup_1 in Hj as (n & Hn).
  destruct (Forall2_lookup_l _ _ _ _ _ Hall Hn) as (u & Hu & Hju).
  rewrite Ht in Hju. injection Hju as <-.
  apply list_elem_of_lookup_2, list_elem_of_In in Hu.
  destruct (missed_targets _ _) as [|m ms]; [destruct Hu|].
  eexists. split; [reflexivity | exact Hu].
Qed.

(** X5: a target list that holds the same target twice never resolves:
    only the first occurrence can be marked, so the call raises the
    target-not-found error and reports the repeated target, whatever the
    tree. *)
Theorem repeated_target_is_reported (host : Host) (l : list string)
    (module : Module) (params : bool) (i j : nat) (t : string) :
  (i < j)%nat -> l !! i = Some t -> l !! j = Some t ->
  exists missed,
    match_layers_params host (TList l) module params
    = Raise (ValueError_targets_not_found missed) /\
    In t missed.
Proof.
  intros Hij Hi Hj.
  apply (unmarked_target_is_reported host (TList l) module params j t);
    try reflexivity; [exact Hj|].
  assert (forall name, ~ first_match host name l j) as Hname.
  { intros name [(u & Hu & Hm) Hlt]. simpl in *.
    rewrite Hj in Hu. injection Hu as <-.
    rewrite (Hlt i t Hij Hi) in Hm. discriminate. }
  intros (nl & _ & [[_ H]|[[_ [Hc Hlt]]|(np & _ & _ & H)]]); simpl in *.
  - now apply Hname in H.
  - apply (Hlt i Hij). congruence.
  - now apply Hname in H.
Qed.

(** X6: asked for parameters, the resolver does not take the name of a
    layer for an answer: a literal target that is neither the name of a
    class nor the compound name of a parameter some node owns raises the
    target-not-found error, also when a layer bears exactly that name. *)
Theorem get_params_by_layer_name_fails (host : Host) (t : string)
    (module : Module) :
  Str.starts_with "re:" t = false ->
  ~ In t sentinels ->
  (forall nl, In nl (named_modules (root module)) ->
              class_name (node nl.2) <> t /\
              forall np, In np (named_parameters nl.2) ->
                         Str.contains dot np.1 = false ->
                         host_fix_fsdp_module_name host nl.1 +:+ "." +:+ np.1
                         <> t) ->
  get_params host (TStr t) module = Raise (ValueError_targets_not_found [t]).
Proof.
  intros Hlit Hs Hnone. unfold get_params.
  assert (forall s, In s sentinels -> targets_eq_str (TStr t) s = false) as Hne.
  { intros s Hin. simpl. apply String.eqb_neq. intros ->. contradiction. }
  rewrite (match_layers_params_walk host (TStr t) module true)
    by (apply Hne; simpl; auto).
  simpl.
  destruct (walk_flags host [t] true module) as [Hlen Hflags].
  destruct (walk host [t] module true) as [resolved found].
  simpl in Hlen, Hflags |- *.
  destruct found as [|b [|? ?]]; try discriminate.
  specialize (Hflags 0%nat). simpl in Hflags.
  rewrite missed_targets_cons. destruct b; simpl; [|reflexivity].
  exfalso.
  assert (marked host [t] module true 0) as (nl & Hin & Hm) by now apply Hflags.
  destruct (Hnone nl Hin) as [Hcls Hpar].
  destruct Hm as [[Hp _]|[[_ [Hc _]]|(np & Hnp & Hdot & [(u & Hu & Hm) _])]].
  - discriminate.
  - simpl in Hc. congruence.
  - apply list_elem_of_lookup_2, list_elem_of_In in Hu as [<-|[]].
    unfold target_matches in Hm. rewrite Hlit in Hm.
    apply String.eqb_eq in Hm. now apply (Hpar np).
Qed.

Lemma visit_no_targets (host : Host) (params : bool) (st : walk_state)
    (nl : string * Layer) :
  visit host [] params st nl = st.
Proof.
  unfold visit.
  assert (visit_layer host [] params (host_fix_fsdp_module_name host nl.1)
                      nl.2 st = st) as ->.
  { destruct st as [resolved found]. unfold visit_layer. simpl.
    reflexivity. }
  induction (named_parameters nl.2) as [|[pn p] ps IH]; simpl; [reflexivity|].
  rewrite <- IH at 2. f_equal.
  destruct st as [resolved found]. unfold visit_param. simpl.
  now destruct (Str.contains dot pn).
Qed.

(** X7: an empty list of targets resolves to the empty mapping, for layers
    and for parameters alike, and raises nothing. *)
Theorem match_layers_params_no_targets (host : Host) (module : Module)
    (params : bool) :
  match_layers_params host (TList []) module params = Ok [].
Proof.
  unfold match_layers_params, walk. simpl.
  assert (forall l st, fold_left (visit host [] params) l st = st) as Hfold.
  { induction l as [|nl l IH]; intros st; simpl; [reflexivity|].
    now rewrite visit_no_targets. }
  now rewrite Hfold.
Qed.

(** ** What the mapping holds *)

Lemma get_default_params_In (layers : dict Layer) (k : string) (p : Tensor) :
  In (k, p) (get_default_params layers) ->
  exists l, In (k, l) layers /\ default_param l = Some p.
Proof.
  unfold get_default_params.
  assert (forall acc : dict Tensor,
            In (k, p)
               (fold_left (fun params '(name, layer) =>
                             match default_param layer with
                             | Some param => dict_set name param params
                             | None => params
                             end) layers acc) ->
            In (k, p) acc \/
            exists l, In (k, l) layers /\ default_param l = Some p) as H.
  { induction layers as [|[name layer] layers IH]; intros acc; simpl; [auto|].
    intros Hin. apply IH in Hin as [Hin|(l & Hl & Hp)]; [|eauto].
    destruct (default_param layer) as [w|] eqn:E; [|auto].
    apply dict_set_In in Hin as [Hin|[= -> ->]]; eauto. }
  intros Hin. apply H in Hin as [[]|Hin]. exact Hin.
Qed.

Lemma default_param_is_named (l : Layer) (p : Tensor) :
  default_param l = Some p ->
  exists np, In np (named_parameters l) /\ np.2 = p.
Proof.
  unfold default_param.
  destruct (find _ (named_parameters l)) as [np|] eqn:E; [|discriminate].
  intros [= <-]. apply find_some in E as [Hin _]. eauto.
Qed.

Section Entries.

Variable host : Host.
Variable module : Module.
Variable params : bool.

(** The entry is keyed by the name of a node of the tree, as the
    traversal gives it or normalized, and holds that node or, when
    parameters are asked for, a parameter found from that node. *)
Local Abbreviation entry_ok x :=
  (exists nl, In nl (named_modules (root module)) /\
              (x.1 = nl.1 \/ x.1 = host_fix_fsdp_module_name host nl.1) /\
              (x.2 = ELayer nl.2 \/
               (params = true /\
                exists np, In np (named_parameters nl.2) /\ x.2 = EParam np.2))).

Local Abbreviation entries_ok resolved :=
  (forall x : string * Entity, In x resolved -> entry_ok x).

Lemma visit_entries targets st nl :
  In nl (named_modules (root module)) ->
  entries_ok st.1 -> entries_ok (visit host targets params st nl).1.
Proof.
  intros Hnl Hst. unfold visit.
  assert (entry_ok (host_fix_fsdp_module_name host nl.1, ELayer nl.2)) as Hl.
  { exists nl. simpl. auto. }
  assert (entries_ok (visit_layer host targets params
                        (host_fix_fsdp_module_name host nl.1) nl.2 st).1)
    as Hvl.
  { destruct st as [resolved found]. unfold visit_layer. simpl in Hst.
    destruct (match_targets host _ (TList targets)) as [m i].
    destruct (match_class nl.2 (TList targets)) as [c j].
    destruct (m && negb params); [|destruct c]; simpl; try exact Hst;
      intros x Hx; apply dict_set_In in Hx as [Hx| ->]; auto. }
  revert Hvl.
  generalize (visit_layer host targets params
                (host_fix_fsdp_module_name host nl.1) nl.2 st).
  assert (forall np, In np (named_parameters nl.2) ->
                     In np (named_parameters nl.2)) as Hsub by auto.
  revert Hsub.
  generalize (named_parameters nl.2) at 1 3.
  intros ps. induction ps as [|[pn p] ps IH]; intros Hsub st' Hst';
    simpl; [exact Hst'|].
  apply IH; [intros; apply Hsub; now right|].
  destruct st' as [resolved found]. unfold visit_param. simpl in Hst'.
  destruct (Str.contains dot pn); [exact Hst'|].
  destruct (match_targets host _ (TList targets)) as [[|] i]; simpl;
    [|exact Hst'].
  intros x Hx. apply dict_set_In in Hx as [Hx| ->]; [auto|].
  destruct params eqn:Hp; simpl; [|exact Hl].
  exists nl. simpl. split; [exact Hnl|]. split; [auto|]. right.
  split; [reflexivity|]. exists (pn, p). split; [|reflexivity].
  apply Hsub. now left.
Qed.

Lemma walk_entries targets :
  entries_ok (walk host targets module params).1.
Proof.
  unfold walk.
  assert (forall (l : list (string * Layer)) (st : walk_state),
            (forall nl, In nl l -> In nl (named_modules (root module))) ->
            entries_ok st.1 ->
            entries_ok (fold_left (visit host targets params) l st).1) as H.
  { induction l as [|nl l IH]; intros st Hsub Hst; simpl; [exact Hst|].
    apply IH; [intros; apply Hsub; now right|].
    apply visit_entries; [apply Hsub; now left | exact Hst]. }
  apply H; [auto | intros x []].
Qed.

Lemma sentinel_entries (f : string * Layer -> bool) :
  entries_ok (layers_or_default_params params
                (dict_of_items (List.filter f (named_modules (root module))))).
Proof.
  assert (forall n l,
            In (n, l) (dict_of_items
                         (List.filter f (named_modules (root module)))) ->
            In (n, l) (named_modules (root module))) as Hsub.
  { intros n l Hin. apply fold_dict_set_In in Hin as [[]|Hin].
    now apply filter_In in Hin. }
  unfold layers_or_default_params. intros x Hx.
  destruct params eqn:Hp; simpl in Hx;
    apply list_elem_of_In, list_elem_of_fmap in Hx as ([n v] & -> & Hin);
    apply list_elem_of_In in Hin; simpl.
  - apply get_default_params_In in Hin as (l & Hl & Hd).
    apply default_param_is_named in Hd as (np & Hnp & <-).
    exists (n, l). simpl. split; [now apply Hsub|]. split; [auto|]. right.
    split; [reflexivity|]. eauto.
  - exists (n, v). simpl. split; [now apply Hsub|]. auto.
Qed.

End Entries.

(** X8: every entry of the mapping [match_layers_params] returns is keyed
    by the name of a node of the tree (as traversed, or normalized on the
    walk) and holds that very node or, only when parameters are asked for,
    a parameter reached from that node; nothing foreign to the tree is
    ever returned. *)
Theorem match_layers_params_entries (host : Host) (targets : Targets)
    (module : Module) (params : bool) (resolved : dict Entity) :
  match_layers_params host targets module params = Ok resolved ->
  forall k e,
    In (k, e) resolved ->
    exists nl,
      In nl (named_modules (root module)) /\
      (k = nl.1 \/ k = host_fix_fsdp_module_name host nl.1) /\
      (e = ELayer nl.2 \/
       (params = true /\
        exists np, In np (named_parameters nl.2) /\ e = EParam np.2)).
Proof.
  unfold match_layers_params, get_terminal_layers, get_prunable_layers,
    get_quantizable_layers.
  intros H k e Hin.
  destruct (targets_eq_str targets ALL_TARGET);
    [injection H as <-|
     destruct (targets_eq_str targets ALL_PRUNABLE_TARGET);
     [injection H as <-|
      destruct (targets_eq_str targets ALL_QUANTIZABLE_TARGET)]].
  - exact (sentinel_entries host module params _ _ Hin).
  - exact (sentinel_entries host module params _ _ Hin).
  - destruct (QATLinear host); simpl in H; [|discriminate].
    injection H as <-.
    exact (sentinel_entries host module params _ _ Hin).
  - pose proof (walk_entries host module params (as_list targets)) as Hw.
    destruct (walk host (as_list targets) module params) as [r found].
    destruct (0 <? length _)%nat; [discriminate|].
    injection H as <-. exact (Hw _ Hin).
Qed.

(** X9: [get_layers] returns references into the tree only, the node
    carried by each being the one found at its place, and with
    [exclude_internal_modules] none of them is an [InternalModule]; the
    keys it keeps are keys the resolver gave. *)
Theorem get_layers_entries (host : Host) (targets : Targets) (module : Module)
    (exclude_internal_modules : bool) (layer_dict : dict Entity) :
  get_layers host targets module exclude_internal_modules = Ok layer_dict ->
  forall x,
    In x layer_dict ->
    located module x.2 /\
    (exclude_internal_modules = true ->
     entity_isinstance x.2 InternalModule = false) /\
    exists resolved,
      match_layers_params host targets module false = Ok resolved /\
      In x resolved.
Proof.
  unfold get_layers. intros H x Hx.
  destruct (match_layers_params host targets module false) as [r|e] eqn:E;
    simpl in H; [|discriminate].
  pose proof (match_layers_params_located host module targets r E) as Hloc.
  destruct exclude_internal_modules; injection H as <-.
  - apply filter_In in Hx as [Hx Hint]. apply negb_true_iff in Hint.
    split; [now apply Hloc|]. split; [auto|]. eauto.
  - split; [now apply Hloc|]. split; [discriminate|]. eauto.
Qed.

(** ** The last write wins *)

Lemma fold_visit_param_get (host : Host) (targets : list string)
    (params : bool) (name : string) (layer : Layer)
    (ps : list (string * Tensor)) :
  forall st,
    dict_get name (fold_left (visit_param host targets params name layer)
                             ps st).1 =
    match find (fun np => negb (Str.contains dot np.1)
                          && (match_targets host (name +:+ "." +:+ np.1)
                                            (TList targets)).1)
               (rev ps) with
    | Some np => Some (if negb params then ELayer layer else EParam np.2)
    | None => dict_get name st.1
    end.
Proof.
  induction ps as [|[pn p] ps IH] using rev_ind; intros st; [reflexivity|].
  rewrite fold_left_app, rev_unit. simpl.
  specialize (IH st).
  destruct (fold_left (visit_param host targets params name layer) ps st)
    as [resolved found].
  unfold visit_param. simpl in *.
  destruct (Str.contains dot pn); simpl; [exact IH|].
  destruct (match_targets host (name +:+ "." +:+ pn) (TList targets))
    as [[|] i]; simpl; [apply dict_get_set | exact IH].
Qed.

(** X10: after the visit of a node, when some parameter the node owns
    matches a target under its compound name, the entry under the node's
    name is decided by the last such parameter: the parameter itself when
    parameters are asked for, overriding a class match on the node, and
    the node otherwise; with no such parameter the entry is what the name
    and class matches left. *)
Theorem visit_parameter_overrides (host : Host) (targets : list string)
    (params : bool) (st : walk_state) (nl : string * Layer) :
  dict_get (host_fix_fsdp_module_name host nl.1)
           (visit host targets params st nl).1 =
  match last_param_match host targets
          (host_fix_fsdp_module_name host nl.1) nl.2 with
  | Some np => Some (if negb params then ELayer nl.2 else EParam np.2)
  | None =>
      dict_get (host_fix_fsdp_module_name host nl.1)
               (visit_layer host targets params
                  (host_fix_fsdp_module_name host nl.1) nl.2 st).1
  end.
Proof. unfold visit, last_param_match. apply fold_visit_param_get. Qed.

(** ** Parameterized layers, completely *)

Lemma dict_set_NoDup {V} (k : string) (v : V) (d : dict V) :
  NoDup (keys d) -> NoDup (keys (dict_set k v d)).
Proof.
  induction d as [|[k' v'] d IH]; simpl; intros Hnd.
  - apply NoDup_singleton.
  - apply NoDup_cons in Hnd as [Hk Hnd].
    destruct (String.eqb_spec k' k) as [->|Hne]; simpl.
    + apply NoDup_cons. auto.
    + apply NoDup_cons. split; [|auto].
      rewrite list_elem_of_In, dict_set_keys. rewrite list_elem_of_In in Hk.
      intros [E|H]; auto.
Qed.

Lemma fold_dict_set_NoDup {V} (items d : dict V) :
  NoDup (keys d) ->
  NoDup (keys (fold_left (fun d kv => dict_set kv.1 kv.2 d) items d)).
Proof.
  revert d. induction items as [|[k v] items IH]; intros d Hnd; simpl; [auto|].
  apply IH. now apply dict_set_NoDup.
Qed.

Lemma get_default_params_NoDup (layers : dict Layer) :
  NoDup (keys (get_default_params layers)).
Proof.
  unfold get_default_params.
  assert (forall acc : dict Tensor,
            NoDup (keys acc) ->
            NoDup (keys (fold_left
                           (fun params '(name, layer) =>
                              match default_param layer with
                              | Some param => dict_set name param params
                              | None => params
                              end) layers acc))) as H.
  { induction layers as [|[name layer] layers IH]; intros acc Hnd; simpl;
      [auto|].
    apply IH. destruct (default_param layer); [|auto].
    now apply dict_set_NoDup. }
  apply H. constructor.
Qed.

Lemma keys_prod_map {A B} (f : A -> B) (d : dict A) :
  keys (prod_map id f <$> d) = keys d.
Proof.
  unfold keys. induction d as [|[k v] d IH]; simpl; [reflexivity|].
  now f_equal.
Qed.

Lemma visit_NoDup (host : Host) (targets : list string) (params : bool)
    (st : walk_state) (nl : string * Layer) :
  NoDup (keys st.1) -> NoDup (keys (visit host targets params st nl).1).
Proof.
  intros Hst. unfold visit.
  assert (NoDup (keys (visit_layer host targets params
                         (host_fix_fsdp_module_name host nl.1) nl.2 st).1))
    as Hvl.
  { destruct st as [resolved found]. unfold visit_layer. simpl in Hst.
    destruct (match_targets host _ (TList targets)) as [m i].
    destruct (match_class nl.2 (TList targets)) as [c j].
    destruct (m && negb params); [|destruct c]; simpl;
      auto using dict_set_NoDup. }
  revert Hvl.
  generalize (visit_layer host targets params
                (host_fix_fsdp_module_name host nl.1) nl.2 st).
  induction (named_parameters nl.2) as [|[pn p] ps IH]; intros st' Hst';
    simpl; [exact Hst'|].
  apply IH. destruct st' as [resolved found]. unfold visit_param.
  simpl in Hst'.
  destruct (Str.contains dot pn); [exact Hst'|].
  destruct (match_targets host _ (TList targets)) as [[|] i]; simpl;
    auto using dict_set_NoDup.
Qed.

(** The mapping the resolver returns has no key twice. *)
Lemma match_layers_params_NoDup (host : Host) (targets : Targets)
    (module : Module) (params : bool) (resolved : dict Entity) :
  match_layers_params host targets module params = Ok resolved ->
  NoDup (keys resolved).
Proof.
  assert (forall values : dict Layer,
            NoDup (keys values) ->
            NoDup (keys (layers_or_default_params params values))) as Hs.
  { intros values Hnd. unfold layers_or_default_params.
    destruct params; simpl; rewrite keys_prod_map;
      [apply get_default_params_NoDup | exact Hnd]. }
  assert (forall items : dict Layer, NoDup (keys (dict_of_items items)))
    as Hd.
  { intros items. apply fold_dict_set_NoDup. constructor. }
  unfold match_layers_params, get_terminal_layers, get_prunable_layers,
    get_quantizable_layers.
  destruct (targets_eq_str targets ALL_TARGET);
    [intros [= <-]; apply Hs, Hd|].
  destruct (targets_eq_str targets ALL_PRUNABLE_TARGET);
    [intros [= <-]; apply Hs, Hd|].
  destruct (targets_eq_str targets ALL_QUANTIZABLE_TARGET).
  - destruct (QATLinear host); simpl; [|discriminate].
    intros [= <-]. apply Hs, Hd.
  - assert (NoDup (keys (walk host (as_list targets) module params).1))
      as Hw.
    { unfold walk.
      assert (forall (l : list (string * Layer)) (st : walk_state),
                NoDup (keys st.1) ->
                NoDup (keys (fold_left (visit host (as_list targets) params)
                                       l st).1)) as H.
      { induction l as [|nl l IH]; intros st Hst; simpl; [exact Hst|].
        apply IH. now apply visit_NoDup. }
      apply H. constructor. }
    destruct (walk host (as_list targets) module params) as [r found].
    destruct (0 <? length _)%nat; [discriminate|].
    now intros [= <-].
Qed.

Lemma marks_params_to_layers (host : Host) (targets : list string)
    (nl : string * Layer) (i : nat) :
  marks host targets true nl i -> exists j, marks host targets false nl j.
Proof.
  intros [[Hp _]|[[_ Hc]|Hnp]]; [discriminate| |].
  - pose proof (match_targets_cases host targets
                  (host_fix_fsdp_module_name host nl.1)) as Hm.
    destruct (match_targets host _ (TList targets)) as [[|] r].
    + destruct Hm as (n & _ & Hn). exists n. left. auto.
    + exists i. right. left. auto.
  - exists i. right. right. exact Hnp.
Qed.

Lemma get_default_params_keys (layers : dict Layer) (k : string) :
  In k (keys (get_default_params layers)) -> In k (keys layers).
Proof.
  intros Hin. apply in_map_iff in Hin as ([k' p] & <- & Hin).
  apply get_default_params_In in Hin as (l & Hl & _).
  apply in_map_iff. exists (k', l). auto.
Qed.

(** Every key resolved for parameters is a key resolved for layers. *)
Lemma params_keys_are_layers_keys (host : Host) (targets : Targets)
    (module : Module) (ps ls : dict Entity) :
  match_layers_params host targets module true = Ok ps ->
  match_layers_params host targets module false = Ok ls ->
  forall k, In k (keys ps) -> In k (keys ls).
Proof.
  assert (forall values : dict Layer, forall k,
            In k (keys (layers_or_default_params true values)) ->
            In k (keys (layers_or_default_params false values))) as Hs.
  { intros values k. unfold layers_or_default_params. simpl.
    rewrite !keys_prod_map. apply get_default_params_keys. }
  unfold match_layers_params, get_quantizable_layers.
  destruct (targets_eq_str targets ALL_TARGET);
    [intros [= <-] [= <-]; apply Hs|].
  destruct (targets_eq_str targets ALL_PRUNABLE_TARGET);
    [intros [= <-] [= <-]; apply Hs|].
  destruct (targets_eq_str targets ALL_QUANTIZABLE_TARGET).
  - destruct (QATLinear host); simpl; [|discriminate].
    intros [= <-] [= <-]. apply Hs.
  - pose proof (walk_keys host (as_list targets) true module) as Hp.
    pose proof (walk_keys host (as_list targets) false module) as Hl.
    destruct (walk host (as_list targets) module true) as [rp fp].
    destruct (walk host (as_list targets) module false) as [rl fl].
    simpl in Hp, Hl.
    destruct (0 <? length _)%nat; [discriminate|].
    destruct (0 <? length _)%nat; [discriminate|].
    intros [= <-] [= <-] k Hk.
    apply Hp in Hk as (nl & Hin & -> & i & Hi).
    apply Hl. exists nl. split; [exact Hin|]. split; [reflexivity|].
    eapply marks_params_to_layers; eauto.
Qed.

Lemma dict_get_present {V} (k : string) (d : dict V) :
  In k (keys d) -> exists v, dict_get k d = Some v.
Proof.
  induction d as [|[k' v] d IH]; simpl; [tauto|].
  destruct (String.eqb_spec k' k) as [->|Hne]; [eauto|].
  intros [E|H]; [contradiction | auto].
Qed.

Lemma bind_Ok {A B} (a : A) (k : A -> result B) : (Ok a ≫= k) = k a.
Proof. reflexivity. Qed.

Lemma get_layers_params_build (layers : dict Entity) (params : dict Entity) :
  forall acc : dict ModelParameterizedLayer,
    NoDup (keys acc ++ keys params) ->
    (forall k, In k (keys params) -> In k (keys layers)) ->
    exists d,
      fold_left
        (fun acc '(name, param) =>
           parameterized_layers ← acc;
           match dict_get name layers with
           | Some l =>
               let param_layer :=
                 {| layer_name := name; layer := l;
                    param_name := name; param := param |} in
               Ok (dict_set name param_layer parameterized_layers)
           | None => Raise (KeyError name)
           end)
        params (Ok acc) = Ok (acc ++ d) /\
      Forall2 (fun np nd =>
                 nd.1 = np.1 /\ param nd.2 = np.2 /\
                 dict_get np.1 layers = Some (layer nd.2))
              params d.
Proof.
  induction params as [|[name p] params IH]; intros acc Hnd Hsub; simpl.
  - exists []. rewrite app_nil_r. split; [reflexivity | constructor].
  - destruct (dict_get_present name layers) as (l & Hl);
      [apply Hsub; now left|].
    rewrite Hl.
    assert (~ In name (keys acc)) as Hfresh.
    { apply NoDup_app in Hnd as (_ & Hd & _). intros Hin.
      apply (Hd name); [now apply list_elem_of_In | simpl; left]. }
    rewrite dict_set_fresh by exact Hfresh.
    destruct (IH (acc ++ [(name, {| layer_name := name; layer := l;
                                     param_name := name; param := p |})]))
      as (d & E & Hall).
    + rewrite keys_app. simpl. now rewrite <- app_assoc.
    + intros k Hk. apply Hsub. now right.
    + eexists (_ :: d). rewrite <- app_assoc in E. split; [exact E|].
      constructor; [simpl; auto | exact Hall].
Qed.

(** X11: whenever the targets resolve both for parameters and for layers,
    [get_layers_params] succeeds: the lookup [layers[name]] never raises a
    key error, and the result holds one record per resolved parameter, in
    the order of resolution, with that entry as [param] and the layers'
    entry of the same name as [layer]. *)
Theorem get_layers_params_total (host : Host) (targets : Targets)
    (module : Module) (params layers : dict Entity) :
  get_params host targets module = Ok params ->
  get_layers host targets module false = Ok layers ->
  exists parameterized_layers,
    get_layers_params host targets module = Ok parameterized_layers /\
    Forall2 (fun np nd =>
               nd.1 = np.1 /\ param nd.2 = np.2 /\
               dict_get np.1 layers = Some (layer nd.2))
            params parameterized_layers.
Proof.
  intros Hp Hl. unfold get_layers_params. rewrite Hp, Hl, !bind_Ok.
  unfold get_params in Hp. unfold get_layers in Hl.
  destruct (match_layers_params host targets module false) as [ls|e] eqn:E;
    simpl in Hl; [|discriminate].
  injection Hl as <-.
  destruct (get_layers_params_build ls params []) as (d & Ed & Hall).
  - simpl. eapply match_layers_params_NoDup; eauto.
  - eapply params_keys_are_layers_keys; eauto.
  - exists d. split; [exact Ed | exact Hall].
Qed.

(** ** Lookup by dotted name *)

Lemma split_append_dot (w s : string) :
  Str.contains dot w = false ->
  Str.split dot (w +:+ "." +:+ s) = w :: Str.split dot s.
Proof.
  induction w as [|a w IH]; intros Hw.
  - rewrite append_nil_l, append_cons, append_nil_l. reflexivity.
  - rewrite append_cons. simpl in *.
    destruct (Ascii.eqb a dot); [discriminate|].
    now rewrite (IH Hw).
Qed.

Lemma join_cons (w : string) (ws : list string) :
  ws <> [] -> Str.join "." (w :: ws) = w +:+ "." +:+ Str.join "." ws.
Proof. destruct ws; [congruence | reflexivity]. Qed.

Lemma split_join (segs : list string) :
  segs <> [] ->
  Forall (fun s => Str.contains dot s = false) segs ->
  Str.split dot (Str.join "." segs) = segs.
Proof.
  induction segs as [|w [|w' rest] IH]; intros Hne Hall; [congruence| |].
  - apply Forall_cons in Hall as [Hw _]. simpl. now apply split_no_dot.
  - apply Forall_cons in Hall as [Hw Hall].
    rewrite join_cons by discriminate.
    rewrite split_append_dot by exact Hw.
    f_equal. now apply IH.
Qed.

Lemma dict_get_Some_In {V} (k : string) (v : V) (d : dict V) :
  dict_get k d = Some v -> In k (keys d).
Proof.
  induction d as [|[k' v'] d IH]; simpl; [discriminate|].
  destruct (String.eqb_spec k' k) as [->|_]; auto.
Qed.

Lemma existsb_eqb_false (name : string) (l : list string) :
  existsb (String.eqb name) l = false <-> ~ In name l.
Proof.
  rewrite <- not_true_iff_false, existsb_exists. split.
  - intros H Hin. apply H. exists name. now rewrite String.eqb_refl.
  - intros H (y & Hy & E). apply String.eqb_eq in E. now subst.
Qed.

Lemma not_shadowed c r ca di ps bs cs name :
  shadowed ca di ps bs name = false ->
  object_getattribute (mkModule c r ca di ps bs cs) name = None /\
  dict_get name ps = None /\ dict_get name bs = None.
Proof.
  unfold shadowed. rewrite !orb_false_iff, !existsb_eqb_false.
  intros [[[Hca Hdi] Hps] Hbs].
  split; [|split; now apply dict_get_absent].
  apply object_getattribute_None. split; now apply dict_get_absent.
Qed.

Lemma children_reachable_cons c r ca di ps bs name ch cs :
  children_reachable (mkModule c r ca di ps bs ((name, ch) :: cs)) = true <->
  shadowed ca di ps bs name = false /\ children_reachable ch = true /\
  children_reachable (mkModule c r ca di ps bs cs) = true.
Proof. simpl. rewrite !andb_true_iff, negb_true_iff. tauto. Qed.

Lemma descends_skip_child c r ca di ps bs name ch cs segs q :
  segs <> [] -> ~ In name (map fst cs) ->
  descends segs (mkModule c r ca di ps bs cs) q ->
  descends segs (mkModule c r ca di ps bs ((name, ch) :: cs)) q.
Proof.
  destruct segs as [|seg segs]; [congruence|]. intros _ Hfresh.
  cbn [descends]. intros (c0 & Hg & Hd). exists c0. split; [|exact Hd].
  apply getattr_child in Hg as (Ho & Hp & Hb & Hc). apply getattr_child.
  split; [exact Ho|]. split; [exact Hp|]. split; [exact Hb|].
  cbn [node root _modules dict_get] in *.
  destruct (String.eqb_spec name seg) as [->|_]; [|exact Hc].
  now apply dict_get_Some_In in Hc.
Qed.

Section Lookup.

Variable foreign_getattr : Attr -> string -> result Attr.

Lemma attr_step_module (m : Module) (name : string) :
  attr_step foreign_getattr (Ok (AModule m)) name
  = getattr (ELayer (root m)) name.
Proof. reflexivity. Qed.

Lemma attr_step_raise (segs : list string) (e : Exception) :
  fold_left (attr_step foreign_getattr) segs (Raise e) = Raise e.
Proof. induction segs as [|seg segs IH]; simpl; [reflexivity | exact IH]. Qed.

Lemma descends_follow (segs : list string) : forall m q rest,
  descends segs m q ->
  fold_left (attr_step foreign_getattr) (segs ++ rest) (Ok (AModule m))
  = fold_left (attr_step foreign_getattr) rest (Ok (AModule q)).
Proof.
  induction segs as [|seg segs IH]; intros m q rest; cbn [descends].
  - now intros ->.
  - intros (c & Hg & Hd). cbn [app fold_left].
    rewrite attr_step_module, Hg. now apply IH.
Qed.

End Lookup.

(** Below a node every name of the traversal is the node's prefix
    extended by the segments that lead to the named node. *)
Lemma named_children_descend (m : Module) :
  proper_names m = true -> children_reachable m = true ->
  forall prefix addr i nl,
    In nl (named_children prefix addr i (_modules m)) ->
    exists segs,
      segs <> [] /\
      Forall (fun s => Str.contains dot s = false) segs /\
      nl.1 = sub_prefix prefix (Str.join "." segs) /\
      descends segs m (node nl.2).
Proof.
  induction m as [[c r ca di ps bs cs] IH] using Module_tree_ind. simpl in IH.
  cbn [_modules].
  induction cs as [|[name ch] cs IHcs]; intros Hwf Hcp prefix addr i nl;
    cbn [named_children]; [intros []|].
  apply (proper_names_cons c r ca di ps bs) in Hwf
    as (Hname & Hdot & Hfresh & Hch & Hcs).
  apply (children_reachable_cons c r ca di ps bs) in Hcp
    as (Hsh & Hcpch & Hcpcs).
  apply Forall_cons in IH as [IHch IH]. simpl in IHch.
  assert (getattr (ELayer (root (mkModule c r ca di ps bs ((name, ch) :: cs))))
                  name = Ok (AModule ch)) as Hchild.
  { apply getattr_child.
    destruct (not_shadowed c r ca di ps bs ((name, ch) :: cs) name Hsh)
      as (Ho & Hp & Hb).
    split; [exact Ho|]. split; [exact Hp|]. split; [exact Hb|].
    cbn [node root _modules dict_get]. now rewrite String.eqb_refl. }
  rewrite in_app_iff, named_modules_from_eq. cbn [In].
  intros [[<-|Hin]|Hin].
  - exists [name]. split; [discriminate|]. split; [auto|].
    split; [reflexivity|]. cbn [descends]. exists ch. auto.
  - apply (IHch Hch Hcpch) in Hin as (segs & Hne & Hall & -> & Hd).
    exists (name :: segs). split; [discriminate|]. split; [auto|].
    split.
    + rewrite join_cons by exact Hne. now apply sub_prefix_twice.
    + cbn [descends]. exists ch. auto.
  - apply (IHcs IH Hcs Hcpcs) in Hin as (segs & Hne & Hall & E & Hd).
    exists segs. split; [exact Hne|]. split; [exact Hall|].
    split; [exact E|]. now apply descends_skip_child.
Qed.

(** X12: in a tree with proper attribute names in which nothing shadows a
    child (no attribute of the class, instance attribute, parameter or
    buffer of its parent bears its name), every name the traversal gives
    to a node other than the root resolves, through [get_layer_by_name],
    to that very node. *)
Theorem get_layer_by_name_finds_traversed
    (foreign_getattr : Attr -> string -> result Attr) (module : Module) :
  proper_names module = true ->
  children_reachable module = true ->
  forall nl,
    In nl (named_modules (root module)) -> nl.1 <> "" ->
    get_layer_by_name foreign_getattr nl.1 module = Ok (AModule (node nl.2)).
Proof.
  intros Hwf Hcp nl Hin Hne. unfold named_modules in Hin.
  rewrite named_modules_from_eq in Hin. destruct Hin as [<-|Hin];
    [now simpl in Hne|].
  apply (named_children_descend _ Hwf Hcp) in Hin
    as (segs & Hs & Hall & E & Hd).
  change (sub_prefix "" (Str.join "." segs)) with (Str.join "." segs) in E.
  unfold get_layer_by_name. rewrite E, split_join by assumption.
  rewrite <- (app_nil_r segs).
  now rewrite (descends_follow foreign_getattr _ _ _ _ Hd).
Qed.

(** X13: when the segments [pre] lead from the root, child by child, to a
    module, the lookup of the dotted name [pre.seg.post] goes on from what
    [getattr] gives for [seg] on that module: if the module has no
    attribute [seg] at all, it raises the attribute error for [seg],
    whatever follows; if the ordinary lookup finds a value (an instance
    attribute such as [training], a method), it goes on from that value. *)
Theorem get_layer_by_name_missing_segment
    (foreign_getattr : Attr -> string -> result Attr) (module q : Module)
    (pre post : list string) (seg : string) :
  Forall (fun s => Str.contains dot s = false) (pre ++ seg :: post) ->
  descends pre module q ->
  (hasattr q seg = false ->
   get_layer_by_name foreign_getattr (Str.join "." (pre ++ seg :: post)) module
   = Raise (AttributeError seg)) /\
  (forall v,
      object_getattribute q seg = Some v ->
      get_layer_by_name foreign_getattr (Str.join "." (pre ++ seg :: post))
                        module
      = fold_left (attr_step foreign_getattr) post (Ok (AValue v))).
Proof.
  intros Hall Hd. unfold get_layer_by_name.
  rewrite split_join; [|now destruct pre|exact Hall].
  rewrite (descends_follow foreign_getattr _ _ _ _ Hd). cbn [fold_left].
  rewrite attr_step_module. split.
  - unfold hasattr. intros Hh.
    destruct (getattr (ELayer (root q)) seg) as [a|e] eqn:E; [discriminate|].
    apply getattr_raises in E as ->. apply attr_step_raise.
  - intros v Hv. unfold getattr. cbn [node root]. now rewrite Hv.
Qed.

(** ** The sharding hint *)

(** X14: [get_no_split_params] never returns an empty list: a model
    without no-split modules yields the bare sentinel [__ALL__], which
    [get_layers] resolves to the terminal layers of the model, and any
    other model yields its own list unchanged. *)
Theorem get_no_split_params_never_empty
    (_get_no_split_modules : Module -> list string) (host : Host)
    (model : Module) :
  as_list (get_no_split_params _get_no_split_modules model) <> [] /\
  (_get_no_split_modules model = [] ->
   get_layers host (get_no_split_params _get_no_split_modules model)
              model false
   = Ok (prod_map id ELayer <$> get_terminal_layers model)) /\
  (_get_no_split_modules model <> [] ->
   get_no_split_params _get_no_split_modules model
   = TList (_get_no_split_modules model)).
Proof.
  unfold get_no_split_params. simpl.
  destruct (_get_no_split_modules model) as [|t l] eqn:E; simpl.
  - split; [discriminate|]. split; [reflexivity | congruence].
  - split; [discriminate|]. split; [discriminate | reflexivity].
Qed.

(** ** What [set_layer] changes *)

Lemma dict_set_split {V} (k : string) (old : V) (d : dict V) :
  dict_get k d = Some old ->
  exists before after,
    d = before ++ (k, old) :: after /\ ~ In k (keys before) /\
    forall v, dict_set k v d = before ++ (k, v) :: after.
Proof.
  induction d as [|[k' v'] d IH]; simpl; [discriminate|].
  destruct (String.eqb_spec k' k) as [->|Hne].
  - intros [= ->]. exists [], d. simpl. auto.
  - intros H. destruct (IH H) as (before & after & -> & Hk & Hset).
    exists ((k', v') :: before), after. simpl.
    split; [reflexivity|]. split; [tauto|].
    intros v. now rewrite Hset.
Qed.

Lemma dict_get_set_ne {V} (k k' : string) (v : V) (d : dict V) :
  k <> k' -> dict_get k' (dict_set k v d) = dict_get k' d.
Proof.
  intros Hne. induction d as [|[k0 v0] d IH]; simpl.
  - destruct (String.eqb_spec k k'); [contradiction | reflexivity].
  - destruct (String.eqb_spec k0 k) as [->|Hk0]; simpl.
    + destruct (String.eqb_spec k k'); [contradiction | reflexivity].
    + now rewrite IH.
Qed.

(** Places that part from [addr] are out of reach of an update at
    [addr]. *)
Lemma deref_update_at_apart (f : Module -> Module) (common : list nat) :
  forall m i j rest rest',
    i <> j ->
    deref (common ++ j :: rest') (update_at (common ++ i :: rest) f m)
    = deref (common ++ j :: rest') m.
Proof.
  induction common as [|c common IH]; intros m i j rest rest' Hij; simpl.
  - now rewrite list_lookup_alter_ne.
  - rewrite list_lookup_alter_eq.
    destruct (_modules m !! c) as [[name ch]|]; simpl; [|reflexivity].
    now apply IH.
Qed.

(** What an assignment leaves of the lookups on the module. *)
Lemma getattr_assign_same (p : Module) (attr : string) (value : Module) :
  getattr (ELayer (root (assign_module p attr value))) attr
  = match dict_get attr (class_attrs p) with
    | Some (_, v) => Ok (AValue v)
    | None => Ok (AModule value)
    end.
Proof.
  unfold getattr, object_getattribute, Module_getattr, assign_module.
  cbn [node root class_attrs __dict__ _parameters _buffers _modules].
  rewrite !dict_get_del, dict_get_set.
  now destruct (dict_get attr (class_attrs p)) as [[[|] v]|].
Qed.

Lemma getattr_assign_other (p : Module) (attr other : string)
    (value : Module) :
  other <> attr ->
  getattr (ELayer (root (assign_module p attr value))) other
  = getattr (ELayer (root p)) other.
Proof.
  intros Hne.
  unfold getattr, object_getattribute, Module_getattr, assign_module.
  cbn [node root class_attrs __dict__ _parameters _buffers _modules].
  rewrite !dict_get_del_ne by congruence.
  now rewrite dict_get_set_ne by congruence.
Qed.

(** X15: a successful [set_layer] whose last segment is not the name of a
    registry returns what [getattr] gave on the resolved parent and leaves,
    at the parent's place, a module of the same class with the same
    parameters that holds the replacement as a child under that name;
    every other attribute of the parent reads as before, a child that was
    returned is replaced in its slot, the order of the children kept, and
    every place of the tree that parts from the parent's is left as it
    was. *)
Theorem set_layer_attaches (host : Host) (target : string)
    (layer module : Module) (old_layer : Attr) (module' : Module) :
  ~ In (List.last (Str.split dot target) "") registry_names ->
  set_layer host target layer module = Ok (old_layer, module') ->
  exists p p',
    parent_of host target module = Ok (ELayer p) /\
    getattr (ELayer p) (List.last (Str.split dot target) "") = Ok old_layer /\
    deref (address p) module' = Some p' /\
    class_name p' = class_name (node p) /\
    _parameters p' = _parameters (node p) /\
    dict_get (List.last (Str.split dot target) "") (_modules p')
    = Some layer /\
    (forall other,
        other <> List.last (Str.split dot target) "" ->
        getattr (ELayer (root p')) other = getattr (ELayer p) other) /\
    (forall old,
        old_layer = AModule old ->
        exists before after,
          _modules (node p)
          = before ++ (List.last (Str.split dot target) "", old) :: after /\
          ~ In (List.last (Str.split dot target) "") (keys before) /\
          p' = set_modules (node p)
                 (before ++ (List.last (Str.split dot target) "", layer)
                         :: after)) /\
    forall common i j rest rest',
      address p = common ++ i :: rest -> i <> j ->
      deref (common ++ j :: rest') module'
      = deref (common ++ j :: rest') module.
Proof.
  unfold set_layer. set (attr := List.last (Str.split dot target) "").
  intros _ H.
  destruct (parent_of host target module) as [pl|e] eqn:Hp;
    simpl in H; [|discriminate].
  destruct (parent_of_located _ _ _ _ Hp) as (p & -> & Hd).
  destruct (getattr (ELayer p) attr) as [a|e] eqn:Hg;
    simpl in H; [|discriminate].
  destruct (dict_get attr (_parameters (node p))) as [w|] eqn:Hw;
    simpl in H; [discriminate|].
  injection H as <- <-.
  exists p, (assign_module (node p) attr layer).
  split; [reflexivity|]. split; [exact Hg|].
  split; [now rewrite deref_update_at, Hd|].
  split; [reflexivity|].
  split; [simpl; now apply dict_del_absent|].
  split; [simpl; apply dict_get_set|].
  split; [intros other Hne; now apply getattr_assign_other|].
  split.
  - intros old ->.
    rewrite (assign_module_child (node p) attr old layer Hg).
    apply getattr_child in Hg as (_ & _ & _ & Hold).
    destruct (dict_set_split _ _ _ Hold) as (before & after & E & Hk & Hset).
    exists before, after. split; [exact E|]. split; [exact Hk|].
    now rewrite Hset.
  - intros common i j rest rest' Ha Hij. rewrite Ha.
    now apply deref_update_at_apart.
Qed.

(** X16: after a successful [set_layer] at a target without a dot that is
    not the name of a registry, the lookup of that name in the new tree
    gives the replacement, also when the name was an instance attribute or
    a buffer before, unless the class of the root has an attribute of that
    name, which the lookup then still gives; the lookup of every other
    top-level name gives what it gave before. *)
Theorem set_layer_then_lookup
    (foreign_getattr : Attr -> string -> result Attr) (host : Host)
    (target : string) (layer module : Module) (old_layer : Attr)
    (module' : Module) :
  Str.contains dot target = false ->
  ~ In target registry_names ->
  set_layer host target layer module = Ok (old_layer, module') ->
  get_layer_by_name foreign_getattr target module'
  = match dict_get target (class_attrs module) with
    | Some (_, v) => Ok (AValue v)
    | None => Ok (AModule layer)
    end /\
  forall other,
    Str.contains dot other = false -> other <> target ->
    get_layer_by_name foreign_getattr other module'
    = get_layer_by_name foreign_getattr other module.
Proof.
  intros Hdot _ H. unfold set_layer, parent_of in H.
  rewrite (split_no_dot _ Hdot) in H. cbn [removelast Str.join] in H.
  cbn [String.eqb negb List.last] in H. cbv [mbind result_bind] in H.
  unfold maybe_get_wrapped in H.
  destruct (getattr (ELayer (root module)) target) as [a|e];
    [|discriminate].
  unfold setattr in H. cbn [node root address update_at] in H.
  destruct (dict_get target (_parameters module)); [discriminate|].
  injection H as <- <-. unfold get_layer_by_name. split.
  - rewrite (split_no_dot _ Hdot). cbn [fold_left].
    rewrite attr_step_module. apply getattr_assign_same.
  - intros other Ho Hne. rewrite (split_no_dot _ Ho). cbn [fold_left].
    rewrite !attr_step_module. now apply getattr_assign_other.
Qed.

(** ** Quantization anywhere in the tree *)

Lemma named_children_nth (prefix : string) (addr : list nat)
    (cs : list (string * Module)) :
  forall i k name c nl,
    cs !! k = Some (name, c) ->
    In nl (named_modules_from (sub_prefix prefix name) (addr ++ [(i + k)%nat]) c) ->
    In nl (named_children prefix addr i cs).
Proof.
  induction cs as [|[n ch] cs IH]; intros i k name c nl Hk Hin; [discriminate|].
  simpl. apply in_app_iff. destruct k as [|k]; simpl in Hk.
  - injection Hk as -> ->. rewrite Nat.add_0_r in Hin. now left.
  - right. apply (IH (S i) k name c); [exact Hk|].
    now replace (S i + k)%nat with (i + S k)%nat by lia.
Qed.

(** Every node of the tree is visited by the traversal. *)
Lemma traversal_complete (a : list nat) :
  forall m prefix addr q, deref a m = Some q ->
    exists name,
      In (name, mkLayer (addr ++ a) q) (named_modules_from prefix addr m).
Proof.
  induction a as [|i a IH]; intros m prefix addr q Hd; simpl in Hd.
  - injection Hd as <-. exists prefix. rewrite app_nil_r.
    rewrite named_modules_from_eq. now left.
  - destruct (_modules m !! i) as [[name c]|] eqn:Hi; [|discriminate].
    destruct (IH c (sub_prefix prefix name) (addr ++ [i]) q Hd) as (nm & Hin).
    exists nm. rewrite named_modules_from_eq. right.
    apply (named_children_nth prefix addr (_modules m) 0 i name c); [exact Hi|].
    simpl. rewrite <- app_assoc in Hin. exact Hin.
Qed.

Lemma qat_active_loop_true (is_module_quantized : Module -> bool)
    (layers : list (string * Layer)) :
  qat_active_loop is_module_quantized layers = true <->
  exists nl, In nl layers /\
    (isinstance nl.2 FakeQuantize = true \/
     is_module_quantized (node nl.2) = true).
Proof.
  induction layers as [|[name layer] rest IH]; simpl.
  - split; [discriminate|]. now intros (nl & [] & _).
  - destruct (isinstance layer FakeQuantize) eqn:Hi.
    { split; [|reflexivity]. intros _. exists (name, layer). auto. }
    destruct (is_module_quantized (node layer)) eqn:Hq.
    { split; [|reflexivity]. intros _. exists (name, layer). auto. }
    rewrite IH. split.
    + intros (nl & Hin & H). exists nl. auto.
    + intros (nl & [<-|Hin] & H).
      * simpl in H. rewrite Hi, Hq in H. destruct H; discriminate.
      * exists nl. auto.
Qed.

(** X17: [qat_active] is true exactly when some module of the tree, at
    any depth, the root included, is an instance of [FakeQuantize] or is
    reported quantized by [is_module_quantized]; returning at the first
    hit loses nothing. *)
Theorem qat_active_anywhere (is_module_quantized : Module -> bool)
    (module : Module) :
  qat_active is_module_quantized module = true <->
  exists addr q, deref addr module = Some q /\
    (existsb (ClassRef_eqb FakeQuantize) (class_mro q) = true \/
     is_module_quantized q = true).
Proof.
  unfold qat_active. rewrite qat_active_loop_true. split.
  - intros (nl & Hin & H).
    destruct (named_modules_located _ _ Hin) as (l & [= <-] & Hd).
    exists (address nl.2), (node nl.2). auto.
  - intros (addr & q & Hd & H).
    destruct (traversal_complete addr module "" [] q Hd) as (name & Hin).
    exists (name, mkLayer ([] ++ addr) q). auto.
Qed.

(** ** The further properties on concrete trees *)

Lemma get_terminal_layers_leaves_witness :
  proper_names block_model = true /\
  get_terminal_layers block_model
  = [("block.fc", mkLayer [0; 0]%nat (linear 1))].
Proof.
  split; [reflexivity|].
  destruct (get_terminal_layers_leaves block_model) as (_ & _ & E & _).
  rewrite (E eq_refl). reflexivity.
Defined.

Lemma prunable_contains_quantizable_witness :
  get_quantizable_layers (plain_host (Some QATLinear_cls)) block_model
  = Ok [("block.fc", mkLayer [0; 0]%nat (linear 1))] /\
  proper_names block_model = true /\
  In ("block.fc", mkLayer [0; 0]%nat (linear 1))
     (get_prunable_layers (plain_host (Some QATLinear_cls)) block_model).
Proof.
  assert (get_quantizable_layers (plain_host (Some QATLinear_cls)) block_model
          = Ok [("block.fc", mkLayer [0; 0]%nat (linear 1))]) as E
    by (vm_compute; reflexivity).
  split; [exact E|]. split; [reflexivity|].
  destruct (prunable_contains_quantizable (plain_host (Some QATLinear_cls))
              block_model) as (_ & _ & H).
  destruct (H _ ("block.fc", mkLayer [0; 0]%nat (linear 1)) E) as [_ Hin];
    [now left|].
  apply Hin. reflexivity.
Defined.

Lemma match_layers_params_all_or_nothing_witness :
  targets_eq_str (TList ["block.fc"]) ALL_TARGET = false /\
  targets_eq_str (TList ["block.fc"]) ALL_PRUNABLE_TARGET = false /\
  targets_eq_str (TList ["block.fc"]) ALL_QUANTIZABLE_TARGET = false /\
  (forall i, (i < 1)%nat ->
             marked (plain_host None) ["block.fc"] block_model false i) /\
  [("block.fc", ELayer (mkLayer [0; 0]%nat (linear 1)))]
  = (walk (plain_host None) ["block.fc"] block_model false).1.
Proof.
  destruct (match_layers_params_all_or_nothing (plain_host None)
              (TList ["block.fc"]) block_model false eq_refl eq_refl eq_refl)
    as [Hiff Hres].
  split; [reflexivity|]. split; [reflexivity|]. split; [reflexivity|].
  split.
  - apply Hiff. eexists. vm_compute. reflexivity.
  - apply Hres. vm_compute. reflexivity.
Defined.

Lemma match_layers_params_keys_witness :
  match_layers_params (plain_host None) (TList ["block.fc"]) block_model false
  = Ok [("block.fc", ELayer (mkLayer [0; 0]%nat (linear 1)))] /\
  exists nl, In nl (named_modules (root block_model)) /\
             "block.fc" = nl.1 /\
             exists i, marks (plain_host None) ["block.fc"] false nl i.
Proof.
  assert (match_layers_params (plain_host None) (TList ["block.fc"])
            block_model false
          = Ok [("block.fc", ELayer (mkLayer [0; 0]%nat (linear 1)))]) as E
    by (vm_compute; reflexivity).
  split; [exact E|].
  apply (match_layers_params_keys (plain_host None) (TList ["block.fc"])
           block_model false _ eq_refl eq_refl eq_refl E "block.fc").
  now left.
Defined.

Lemma repeated_target_is_reported_witness :
  (0 < 1)%nat /\
  exists missed,
    match_layers_params (plain_host None) (TList ["Linear"; "Linear"])
                        block_model false
    = Raise (ValueError_targets_not_found missed) /\
    In "Linear" missed.
Proof.
  split; [lia|].
  apply (repeated_target_is_reported (plain_host None) ["Linear"; "Linear"]
           block_model false 0 1 "Linear"); [lia | reflexivity | reflexivity].
Defined.

Lemma get_params_by_layer_name_fails_witness :
  Str.starts_with "re:" "block.fc" = false /\
  In "block.fc" (keys (named_modules (root block_model))) /\
  get_params (plain_host None) (TStr "block.fc") block_model
  = Raise (ValueError_targets_not_found ["block.fc"]).
Proof.
  split; [reflexivity|]. split; [simpl; auto|].
  apply get_params_by_layer_name_fails; [reflexivity | |].
  - intros [H|[H|[H|[]]]]; discriminate H.
  - intros nl [<-|[<-|[<-|[]]]]; (split; [discriminate|]);
      intros np Hnp Hd; vm_compute in Hnp;
      repeat (destruct Hnp as [<-|Hnp]); try destruct Hnp;
      try discriminate Hd; vm_compute; discriminate.
Defined.

Lemma match_layers_params_entries_witness :
  match_layers_params (plain_host None) (TList ["block.fc.weight"])
                      block_model true
  = Ok [("block.fc", EParam (tensor 1))] /\
  exists nl,
    In nl (named_modules (root block_model)) /\
    ("block.fc" = nl.1 \/ "block.fc" = nl.1) /\
    (EParam (tensor 1) = ELayer nl.2 \/
     (true = true /\
      exists np, In np (named_parameters nl.2) /\
                 EParam (tensor 1) = EParam np.2)).
Proof.
  assert (match_layers_params (plain_host None) (TList ["block.fc.weight"])
            block_model true
          = Ok [("block.fc", EParam (tensor 1))]) as E
    by (vm_compute; reflexivity).
  split; [exact E|].
  apply (match_layers_params_entries (plain_host None)
           (TList ["block.fc.weight"]) block_model true _ E).
  now left.
Defined.

Lemma get_layers_entries_witness :
  get_layers (plain_host None) (TList ["Linear"]) block_model true
  = Ok [("block.fc", ELayer (mkLayer [0; 0]%nat (linear 1)))] /\
  located block_model (ELayer (mkLayer [0; 0]%nat (linear 1))) /\
  entity_isinstance (ELayer (mkLayer [0; 0]%nat (linear 1))) InternalModule
  = false.
Proof.
  assert (get_layers (plain_host None) (TList ["Linear"]) block_model true
          = Ok [("block.fc", ELayer (mkLayer [0; 0]%nat (linear 1)))]) as E
    by (vm_compute; reflexivity).
  split; [exact E|].
  destruct (get_layers_entries (plain_host None) (TList ["Linear"])
              block_model true _ E
              ("block.fc", ELayer (mkLayer [0; 0]%nat (linear 1))))
    as (Hloc & Hint & _); [now left|].
  split; [exact Hloc | exact (Hint eq_refl)].
Defined.

Lemma get_layers_params_total_witness :
  get_params (plain_host None) (TList ["block.fc.weight"]) block_model
  = Ok [("block.fc", EParam (tensor 1))] /\
  get_layers (plain_host None) (TList ["block.fc.weight"]) block_model false
  = Ok [("block.fc", ELayer (mkLayer [0; 0]%nat (linear 1)))] /\
  exists parameterized_layers,
    get_layers_params (plain_host None) (TList ["block.fc.weight"]) block_model
    = Ok parameterized_layers /\
    Forall2 (fun np nd =>
               nd.1 = np.1 /\ param nd.2 = np.2 /\
               dict_get np.1
                 [("block.fc", ELayer (mkLayer [0; 0]%nat (linear 1)))]
               = Some (layer nd.2))
            [("block.fc", EParam (tensor 1))] parameterized_layers.
Proof.
  assert (get_params (plain_host None) (TList ["block.fc.weight"]) block_model
          = Ok [("block.fc", EParam (tensor 1))]) as Ep
    by (vm_compute; reflexivity).
  assert (get_layers (plain_host None) (TList ["block.fc.weight"])
            block_model false
          = Ok [("block.fc", ELayer (mkLayer [0; 0]%nat (linear 1)))]) as El
    by (vm_compute; reflexivity).
  split; [exact Ep|]. split; [exact El|].
  exact (get_layers_params_total (plain_host None) (TList ["block.fc.weight"])
           block_model _ _ Ep El).
Defined.

Lemma get_layer_by_name_finds_traversed_witness :
  proper_names block_model = true /\
  children_reachable block_model = true /\
  get_layer_by_name no_foreign_attr "block.fc" block_model
  = Ok (AModule (linear 1)).
Proof.
  split; [reflexivity|]. split; [reflexivity|].
  apply (get_layer_by_name_finds_traversed no_foreign_attr block_model
           eq_refl eq_refl ("block.fc", mkLayer [0; 0]%nat (linear 1)));
    [simpl; auto | discriminate].
Defined.

Lemma get_layer_by_name_missing_segment_witness :
  descends ["block"] block_model
           (nn_module "Block" [] [] [("fc", linear 1)]) /\
  hasattr (nn_module "Block" [] [] [("fc", linear 1)]) "zz" = false /\
  get_layer_by_name no_foreign_attr "block.zz.w" block_model
  = Raise (AttributeError "zz") /\
  get_layer_by_name no_foreign_attr "block.training" block_model
  = Ok (AValue (pyvalue 1)).
Proof.
  assert (descends ["block"] block_model
            (nn_module "Block" [] [] [("fc", linear 1)])) as Hd.
  { eexists. split; reflexivity. }
  split; [exact Hd|]. split; [reflexivity|]. split.
  - apply (get_layer_by_name_missing_segment no_foreign_attr block_model
             (nn_module "Block" [] [] [("fc", linear 1)])
             ["block"] ["w"] "zz");
      [repeat constructor | exact Hd | reflexivity].
  - apply (get_layer_by_name_missing_segment no_foreign_attr block_model
             (nn_module "Block" [] [] [("fc", linear 1)])
             ["block"] [] "training");
      [repeat constructor | exact Hd | reflexivity].
Defined.

Lemma get_no_split_params_never_empty_witness :
  get_layers (plain_host None)
             (get_no_split_params (fun _ => []) block_model) block_model false
  = Ok [("block.fc", ELayer (mkLayer [0; 0]%nat (linear 1)))] /\
  get_no_split_params (fun _ => ["Block"]) block_model = TList ["Block"].
Proof.
  split.
  - destruct (get_no_split_params_never_empty (fun _ => []) (plain_host None)
                block_model) as (_ & E & _).
    rewrite (E eq_refl). reflexivity.
  - destruct (get_no_split_params_never_empty (fun _ => ["Block"])
                (plain_host None) block_model) as (_ & _ & E).
    apply E. discriminate.
Defined.

Lemma set_layer_attaches_witness :
  ~ In "fc" registry_names /\
  set_layer (plain_host None) "block.fc" (linear 7) block_model
  = Ok (AModule (linear 1),
        nn_module "Model" [] []
          [("block", nn_module "Block" [] [] [("fc", linear 7)])]) /\
  exists p p',
    parent_of (plain_host None) "block.fc" block_model = Ok (ELayer p) /\
    deref (address p)
          (nn_module "Model" [] []
             [("block", nn_module "Block" [] [] [("fc", linear 7)])])
    = Some p' /\
    exists before after,
      _modules (node p) = before ++ ("fc", linear 1) :: after /\
      ~ In "fc" (keys before) /\
      p' = set_modules (node p) (before ++ ("fc", linear 7) :: after).
Proof.
  assert (~ In "fc" registry_names) as Hr.
  { intros [E|[E|[E|[]]]]; discriminate E. }
  assert (set_layer (plain_host None) "block.fc" (linear 7) block_model
          = Ok (AModule (linear 1),
                nn_module "Model" [] []
                  [("block", nn_module "Block" [] [] [("fc", linear 7)])]))
    as E by (vm_compute; reflexivity).
  split; [exact Hr|]. split; [exact E|].
  destruct (set_layer_attaches (plain_host None) "block.fc" (linear 7)
              block_model _ _ Hr E)
    as (p & p' & Hp & _ & Hd & _ & _ & _ & _ & Hslot & _).
  exists p, p'. split; [exact Hp|]. split; [exact Hd|].
  exact (Hslot (linear 1) eq_refl).
Defined.

Lemma set_layer_then_lookup_witness :
  Str.contains dot "training" = false /\
  ~ In "training" registry_names /\
  set_layer (plain_host None) "training" lowercase_block block_model
  = Ok (AValue (pyvalue 1),
        assign_module block_model "training" lowercase_block) /\
  get_layer_by_name no_foreign_attr "training"
    (assign_module block_model "training" lowercase_block)
  = Ok (AModule lowercase_block) /\
  get_layer_by_name no_foreign_attr "block"
    (assign_module block_model "training" lowercase_block)
  = Ok (AModule (nn_module "Block" [] [] [("fc", linear 1)])).
Proof.
  assert (~ In "training" registry_names) as Hr.
  { intros [E|[E|[E|[]]]]; discriminate E. }
  assert (set_layer (plain_host None) "training" lowercase_block block_model
          = Ok (AValue (pyvalue 1),
                assign_module block_model "training" lowercase_block)) as E
    by (vm_compute; reflexivity).
  split; [reflexivity|]. split; [exact Hr|]. split; [exact E|].
  destruct (set_layer_then_lookup no_foreign_attr (plain_host None)
              "training" lowercase_block block_model _ _ eq_refl Hr E)
    as [Hsame Hother].
  split; [exact Hsame|].
  rewrite (Hother "block" eq_refl); [reflexivity | discriminate].
Defined.

(** What the lookups and the assignment do on names that are not children:
    an instance attribute is returned and gives way to the module, a
    method is returned and keeps hiding the module, a buffer is returned
    and removed, a parameter is returned and refuses the module. *)
Example set_layer_over_other_attributes :
  set_layer (plain_host None) "block.training" (linear 7) block_model
  = Ok (AValue (pyvalue 1),
        nn_module "Model" [] []
          [("block",
            mkModule "Block" []
              [("forward", (false, pyvalue 0))]
              [("_parameters", pyvalue 2); ("_buffers", pyvalue 3);
               ("_modules", pyvalue 4)]
              [] [] [("fc", linear 1); ("training", linear 7)])]) /\
  get_layer_by_name no_foreign_attr "forward"
    (assign_module block_model "forward" (linear 7))
  = Ok (AValue (pyvalue 0)) /\
  set_layer (plain_host None) "running_mean" (linear 7) batch_norm
  = Ok (ABuffer (tensor 6),
        mkModule "BatchNorm" []
          [("forward", (false, pyvalue 0))]
          [("training", pyvalue 1); ("_parameters", pyvalue 2);
           ("_buffers", pyvalue 3); ("_modules", pyvalue 4)]
          [("weight", tensor 5)] [] [("running_mean", linear 7)]) /\
  set_layer (plain_host None) "weight" (linear 7) batch_norm
  = Raise (TypeError_parameter_expected "weight") /\
  set_layer (plain_host None) "zz" (linear 7) batch_norm
  = Raise (AttributeError "zz").
Proof. repeat split. Qed.

(** ** One parameter and its layer *)

(** X18: when [get_param] and [get_layer] both succeed on a target, they
    name the same node, the layer returned sits in the tree, and
    [get_layers_params] on that target gives the single record that pairs
    the two under that name. *)
Theorem get_param_and_get_layer_agree (host : Host) (target : string)
    (module : Module) (name name' : string) (p l : Entity) :
  get_param host target module = Ok (name, p) ->
  get_layer host target module = Ok (name', l) ->
  name = name' /\ located module l /\
  get_layers_params host (TStr target) module
  = Ok [(name, {| layer_name := name; layer := l;
                  param_name := name; param := p |})].
Proof.
  unfold get_param, get_layer. intros Hp Hl.
  destruct (get_params host (TStr target) module) as [ps|e] eqn:Ep;
    simpl in Hp; [|discriminate].
  destruct ps as [|np [|? ?]]; try discriminate. injection Hp as ->.
  destruct (get_layers host (TStr target) module false) as [ls|e] eqn:El;
    simpl in Hl; [|discriminate].
  destruct ls as [|nl [|? ?]]; try discriminate. injection Hl as ->.
  assert (match_layers_params host (TStr target) module false
          = Ok [(name', l)]) as E.
  { unfold get_layers in El.
    destruct (match_layers_params host (TStr target) module false);
      simpl in El; [exact El | discriminate]. }
  assert (name = name') as <-.
  { destruct (params_keys_are_layers_keys host (TStr target) module _ _
                Ep E name) as [H|[]]; [now left | now symmetry]. }
  split; [reflexivity|]. split.
  - apply (match_layers_params_located host module _ _ E (name, l)).
    now left.
  - unfold get_layers_params. rewrite Ep, El, !bind_Ok. simpl.
    now rewrite String.eqb_refl.
Qed.

Lemma get_param_and_get_layer_agree_witness :
  get_param (plain_host None) "block.fc.weight" block_model
  = Ok ("block.fc", EParam (tensor 1)) /\
  get_layer (plain_host None) "block.fc.weight" block_model
  = Ok ("block.fc", ELayer (mkLayer [0; 0]%nat (linear 1))) /\
  get_layers_params (plain_host None) (TStr "block.fc.weight") block_model
  = Ok [("block.fc",
         {| layer_name := "block.fc";
            layer := ELayer (mkLayer [0; 0]%nat (linear 1));
            param_name := "block.fc";
            param := EParam (tensor 1) |})].
Proof.
  assert (get_param (plain_host None) "block.fc.weight" block_model
          = Ok ("block.fc", EParam (tensor 1))) as Ep
    by (vm_compute; reflexivity).
  assert (get_layer (plain_host None) "block.fc.weight" block_model
          = Ok ("block.fc", ELayer (mkLayer [0; 0]%nat (linear 1)))) as El
    by (vm_compute; reflexivity).
  split; [exact Ep|]. split; [exact El|].
  exact (proj2 (proj2 (get_param_and_get_layer_agree (plain_host None)
                         "block.fc.weight" block_model _ _ _ _ Ep El))).
Defined.
